(** * SplitBill: the bill-splitting controller of the Butler POS engine

    A shallow embedding of the split-bill controller
    ([validateSplitRequest], [calculatePortionSplit],
    [calculatePercentageSplit], [createSplitOrders], [splitBill]) and the
    properties of its specification.

    The repository holds two copies of the controller.  They share the
    validator, the two calculators and the workflow word for word and
    differ only in how [createSplitOrders] calls the order-completion
    collaborator after COMMIT: the first copy (module [Util]) awaits the
    [completeOrder] utility inside the transaction's [try] block, the
    second (module [Ctrl]) calls the [completeOrder] controller with a
    mock request and response inside a [try]/[catch] of its own.

    Modelling conventions.
    - JavaScript numbers are IEEE 754 binary64 values ([double]), with
      the rounding, the signed zeros, the infinities and NaN of the
      standard.  A number that comes out of JSON is a double or [null]
      ([jsnum]); arithmetic and comparisons take [null] for zero.  The
      validator and the calculators are written once over an interface of
      number operations ([Arith]); the program is its [jsnum] instance.
      The instance of exact rationals ([Qc]) is the idealisation in which
      the specification states its sums.
    - A request body is typed as the documented payload: identifiers and
      [splitType] are strings, [count] a number or null, [percentages] an
      array of such; [None] stands for a field that is absent.
    - An item map is a [gmap] from item id to item line; the fields of an
      item line or customization that the controller only copies are kept
      as an association list of rendered values.  Assigning to the key
      [__proto__] of an object sets its prototype and adds no property.
    - What is sent to the store as JSON comes back as JSON carries it: a
      number that is not finite as [null], a negative zero as zero.
    - An array cannot be longer than [2^32 - 1]; below that, what the
      engine can allocate is a parameter ([Engine]), and running out of
      memory ends the process without raising an exception.
    - The order store is the list of rows of table [orders]; a statement
      may raise an error whenever the environment says so.
    - Console output is not modelled. *)

From stdpp Require Import gmap strings list fin_maps numbers pretty.
From Stdlib Require Import QArith Qcanon Qcabs.
From Stdlib Require Import SpecFloat.

(** ** Errors and results *)

(** A thrown JavaScript value: an error object with its [message].
    [Fatal] is not thrown by any code: it stands for the end of the
    process when the engine runs out of memory. *)
Inductive exn : Type :=
  | Error (message : string)
  | TypeError (message : string)
  | RangeError (message : string)
  | StoreError (message : string)
  | Fatal (message : string).

Definition message (e : exn) : string :=
  match e with
  | Error m | TypeError m | RangeError m | StoreError m | Fatal m => m
  end.

Inductive result (A : Type) : Type :=
  | Ok (a : A)
  | Throw (e : exn).
Arguments Ok {A} a.
Arguments Throw {A} e.

Definition rbind {A B} (r : result A) (k : A → result B) : result B :=
  match r with
  | Ok a => k a
  | Throw e => Throw e
  end.

Definition is_ok {A} (r : result A) : bool :=
  match r with Ok _ => true | Throw _ => false end.

#[global] Instance result_ret : MRet result := @Ok.
#[global] Instance result_bind : MBind result :=
  λ A B k r, rbind r k.

(** What becomes of a computation that allocates: it returns, it raises
    an exception, or the engine runs out of memory and the process ends
    there, with no exception for a [catch] to see. *)
Inductive outcome (A : Type) : Type :=
  | Returns (a : A)
  | Raises (e : exn)
  | Exhausts.
Arguments Returns {A} a.
Arguments Raises {A} e.
Arguments Exhausts {A}.

(** ** Numbers *)

(** The operations the controller applies to numbers. *)
Class Arith (N : Type) : Type := {
  num_of_Z : Z → N;              (* an integer literal *)
  num_hundredth : N;             (* the literal 0.01 *)
  num_add : N → N → N;
  num_sub : N → N → N;
  num_mul : N → N → N;
  num_div : N → N → N;
  num_abs : N → N;               (* Math.abs *)
  num_ltb : N → N → bool;        (* x < y *)
  num_leb : N → N → bool;        (* x <= y *)
  num_falsy : N → bool;          (* !x *)
  num_is_number : N → bool;      (* typeof x === 'number' *)
  num_toZ : N → option Z         (* the value of x when it is an integer *)
}.

(** [Number.isInteger] *)
Definition Number_isInteger {N} `{Arith N} (x : N) : bool :=
  match num_toZ x with Some _ => true | None => false end.

(** *** IEEE 754 binary64 *)

Definition double : Type := spec_float.

Definition prec : Z := 53.
Definition emax : Z := 1024.

(** The double of an integer literal. *)
Definition dnum (z : Z) : double := binary_normalize prec emax z 0 false.

(** The double nearest to [n / d]: what the decimal literal of that
    fraction denotes. *)
Definition decimal (n d : Z) : double := SFdiv prec emax (dnum n) (dnum d).

(** [!x]: zero of either sign and NaN are falsy. *)
Definition double_falsy (x : double) : bool :=
  match x with
  | S754_zero _ | S754_nan => true
  | _ => false
  end.

(** The value of a double that is finite and has no fractional part. *)
Definition double_toZ (x : double) : option Z :=
  match x with
  | S754_zero _ => Some 0%Z
  | S754_finite s m e =>
      if bool_decide (0 ≤ e)%Z then
        Some (if s then (- (Z.pos m * 2 ^ e))%Z else (Z.pos m * 2 ^ e)%Z)
      else if bool_decide (Z.pos m mod 2 ^ (- e) = 0)%Z then
        Some (if s then (- (Z.pos m / 2 ^ (- e)))%Z
              else (Z.pos m / 2 ^ (- e))%Z)
      else None
  | S754_infinity _ | S754_nan => None
  end.

(** A number as JSON carries it: a double, or [null]. *)
Definition jsnum : Type := option double.

Definition jnum (z : Z) : jsnum := Some (dnum z).
Definition jdec (n d : Z) : jsnum := Some (decimal n d).

(** The number an operator makes of its operand: [null] counts as
    zero. *)
Definition ToNumber (x : jsnum) : double :=
  match x with
  | Some d => d
  | None => S754_zero false
  end.

#[global] Instance jsnum_arith : Arith jsnum := {|
  num_of_Z := jnum;
  num_hundredth := jdec 1 100;
  num_add := λ x y, Some (SFadd prec emax (ToNumber x) (ToNumber y));
  num_sub := λ x y, Some (SFsub prec emax (ToNumber x) (ToNumber y));
  num_mul := λ x y, Some (SFmul prec emax (ToNumber x) (ToNumber y));
  num_div := λ x y, Some (SFdiv prec emax (ToNumber x) (ToNumber y));
  num_abs := λ x, Some (SFabs (ToNumber x));
  num_ltb := λ x y, SFltb (ToNumber x) (ToNumber y);
  num_leb := λ x y, SFleb (ToNumber x) (ToNumber y);
  num_falsy := λ x, match x with
                    | Some d => double_falsy d
                    | None => true
                    end;
  num_is_number := λ x, match x with Some _ => true | None => false end;
  num_toZ := λ x, match x with
                  | Some d => double_toZ d
                  | None => None
                  end
|}.

(** [JSON.parse(JSON.stringify(x))] on a number: what is not finite is
    written as [null], and a negative zero as [0]. *)
Definition JSON_number (x : jsnum) : jsnum :=
  match x with
  | Some (S754_finite s m e) => Some (S754_finite s m e)
  | Some (S754_zero _) => Some (S754_zero false)
  | Some (S754_infinity _) | Some S754_nan | None => None
  end.

(** *** Exact rationals *)

Definition num (z : Z) : Qc := Qc_of_Z z.

(** The fraction [1/100]. *)
Definition one_hundredth : Qc := Q2Qc (1 # 100).

#[global] Instance exact_arith : Arith Qc := {|
  num_of_Z := num;
  num_hundredth := one_hundredth;
  num_add := Qcplus;
  num_sub := Qcminus;
  num_mul := Qcmult;
  num_div := Qcdiv;
  num_abs := Qcabs;
  num_ltb := λ x y, bool_decide (x < y)%Qc;
  num_leb := λ x y, bool_decide (x ≤ y)%Qc;
  num_falsy := λ x, bool_decide (x = 0%Qc);
  num_is_number := λ _, true;
  num_toZ := λ x, if bool_decide (Qden (this x) = 1%positive)
                  then Some (Qnum (this x)) else None
|}.

(** ** Data model *)

Record Customization (N : Type) : Type := mkCustomization {
  qty : N;
  price : N;
  originalPrice : option N;
  cust_rest : list (string * string)
}.
Arguments mkCustomization {N} _ _ _ _.
Arguments qty {N} _.
Arguments price {N} _.
Arguments originalPrice {N} _.
Arguments cust_rest {N} _.

Record ItemLine (N : Type) : Type := mkItemLine {
  customizations : list (Customization N);
  item_rest : list (string * string)
}.
Arguments mkItemLine {N} _ _.
Arguments customizations {N} _.
Arguments item_rest {N} _.

Abbreviation ItemMap N := (gmap string (ItemLine N)).

Record SplitRequest (N : Type) : Type := mkSplitRequest {
  tableId : option string;
  orderId : option string;
  splitType : option string;
  count : option N;
  percentages : option (list N)
}.
Arguments mkSplitRequest {N} _ _ _ _ _.
Arguments tableId {N} _.
Arguments orderId {N} _.
Arguments splitType {N} _.
Arguments count {N} _.
Arguments percentages {N} _.

(** ** Objects and arrays *)

(** [obj[key] = value] on a plain object, for a value that is an object:
    the key [__proto__] reaches the setter of [Object.prototype], which
    replaces the prototype of [obj] and gives it no property of its own;
    every other key becomes an own property. *)
Definition object_set {V} (key : string) (value : V) (obj : gmap string V)
  : gmap string V :=
  if bool_decide (key = "__proto__") then obj else <[key := value]> obj.

(** The largest array length, [2^32 - 1]. *)
Definition max_array_length : Z := 4294967295.

(** What the engine can allocate: the longest array of objects its heap
    holds. *)
Record Engine : Type := mkEngine {
  array_capacity : Z
}.

Section Calculators.
Context {N : Type} `{Arith N}.

(** The length of [Array(len)]: a number must be an integer in
    [[0, 2^32 - 1]], or a RangeError is raised; any other value becomes
    the only element of the array. *)
Definition Array_length (len : N) : result Z :=
  if num_is_number len then
    match num_toZ len with
    | Some n =>
        if bool_decide (0 ≤ n ≤ max_array_length)%Z then Ok n
        else Throw (RangeError "Invalid array length")
    | None => Throw (RangeError "Invalid array length")
    end
  else Ok 1%Z.

(** [Array(count).fill().map(() => ({}))]: filling and mapping allocate
    one slot and one fresh empty object per index, which the engine
    survives up to its capacity. *)
Definition Array_of_empty_objects (E : Engine) (len : N)
  : outcome (list (ItemMap N)) :=
  match Array_length len with
  | Ok n =>
      if bool_decide (n ≤ array_capacity E)%Z
      then Returns (replicate (Z.to_nat n) ∅)
      else Exhausts
  | Throw e => Raises e
  end.

(** ** The two calculators *)

Definition calculatePortionSplit (E : Engine) (items : ItemMap N)
    (count : N) : outcome (list (ItemMap N)) :=
  match Array_of_empty_objects E count with
  | Returns splits =>
      Returns
        (foldl
           (λ (splits : list (ItemMap N)) '(itemId, itemData),
              let totalQty :=
                foldl (λ sum c, num_add sum (qty c)) (num_of_Z 0)
                      (customizations itemData) in
              let splitQty := num_div totalQty count in
              (λ split : ItemMap N,
                 object_set itemId
                   {| item_rest := item_rest itemData;
                      customizations :=
                        (λ c,
                           let customizationSplitQty :=
                             num_div (qty c) count in
                           {| cust_rest := cust_rest c;
                              qty := customizationSplitQty;
                              originalPrice := Some (price c);
                              price := price c |})
                          <$> customizations itemData |} split)
                <$> splits)
           splits (map_to_list items))
  | Raises e => Raises e
  | Exhausts => Exhausts
  end.

Definition calculatePercentageSplit (items : ItemMap N)
    (percentages : list N) : list (ItemMap N) :=
  (λ percentage,
     foldl
       (λ (split : ItemMap N) '(itemId, itemData),
          object_set itemId
            {| item_rest := item_rest itemData;
               customizations :=
                 (λ c,
                    let splitQty :=
                      num_div (num_mul (qty c) percentage)
                              (num_of_Z 100) in
                    {| cust_rest := cust_rest c;
                       qty := splitQty;
                       originalPrice := Some (price c);
                       price := price c |})
                   <$> customizations itemData |} split)
       ∅ (map_to_list items))
    <$> percentages.
End Calculators.

(** ** validateSplitRequest *)

Definition dquote : string := String (Ascii.ascii_of_nat 34) EmptyString.

Definition msg_required : string :=
  "tableId, orderId, and splitType are required".
Definition msg_split_type : string :=
  "splitType must be either " +:+ dquote +:+ "portion" +:+ dquote
  +:+ " or " +:+ dquote +:+ "percentage" +:+ dquote.
Definition msg_count : string :=
  "For portion split, count must be a positive integer".
Definition msg_non_empty : string :=
  "For percentage split, percentages must be a non-empty array".
Definition msg_sum : string := "Percentages must sum to 100".
Definition msg_positive : string := "All percentages must be greater than 0".

(** [!x] on an optional string: absent and the empty string are falsy. *)
Definition falsy_str (x : option string) : bool :=
  match x with
  | None => true
  | Some s => bool_decide (s = EmptyString)
  end.

Definition includes (l : list string) (x : option string) : bool :=
  match x with
  | None => false
  | Some s => bool_decide (s ∈ l)
  end.

Definition when_throw (b : bool) (m : string) : result unit :=
  if b then Throw (Error m) else Ok tt.

Section Validator.
Context {N : Type} `{Arith N}.

(** [!x] on an optional number: absent, null, zero and NaN are
    falsy. *)
Definition falsy_num (x : option N) : bool :=
  match x with
  | None => true
  | Some q => num_falsy q
  end.

Definition validateSplitRequest (body : SplitRequest N) : result unit :=
  when_throw (falsy_str (tableId body) || falsy_str (orderId body)
               || falsy_str (splitType body)) msg_required ;;
  when_throw (negb (includes ["portion"; "percentage"] (splitType body)))
              msg_split_type ;;
   (if bool_decide (splitType body = Some "portion") then
      when_throw (falsy_num (count body)
                  || from_option (λ c, num_ltb c (num_of_Z 1)) false
                                 (count body)
                  || negb (from_option Number_isInteger false (count body)))
                 msg_count
    else Ok tt) ;;
   (if bool_decide (splitType body = Some "percentage") then
      match percentages body with
      | None => Throw (Error msg_non_empty)
      | Some ps =>
          when_throw (bool_decide (length ps = 0%nat)) msg_non_empty ;;
          let sum := foldl (λ acc curr, num_add acc curr) (num_of_Z 0) ps in
          when_throw (num_ltb num_hundredth
                              (num_abs (num_sub sum (num_of_Z 100))))
                     msg_sum ;;
          when_throw (existsb (λ p, num_leb p (num_of_Z 0)) ps) msg_positive
      end
    else Ok tt).
End Validator.
(** ** The order store and the world the controller runs in *)

(** A row of table [orders].  [json_data] holds [json_data.items];
    [None] is a row whose [json_data] is null, on which reading [.items]
    raises a TypeError.  [row_rest] holds the columns the controller never
    looks at. *)
Record OrderRow : Type := mkOrderRow {
  row_id : string;
  restaurant_id : string;
  table_id : string;
  json_data : option (ItemMap jsnum);
  row_rest : list (string * string)
}.

(** What the controller does to the outside, in the order it does it. *)
Inductive event : Type :=
  | EvFetch (orderId tableId : string)
  | EvConnect
  | EvBegin
  | EvInsert (newOrderId : string) (splitItems : ItemMap jsnum)
             (originalOrderId : string)
  | EvCommit
  | EvRollback
  | EvRelease
  | EvComplete (restaurantId tableId : string) (total : jsnum)
               (paymentMethod : string)
  | EvCheckOrders (restaurantId tableId : string)
  | EvCheckCompleted (restaurantId tableId : string).

(** [orders] are the committed rows, visible to every connection; [txn]
    is the view of the client's open transaction, if one is open. *)
Record World : Type := mkWorld {
  orders : list OrderRow;
  txn : option (list OrderRow);
  trace : list event
}.

Definition init_world (db : list OrderRow) : World :=
  {| orders := db; txn := None; trace := [] |}.

(** Which statements the store refuses, each with the message of the
    error it raises; [insert_fault i] is for the insert of share [i]. *)
Record StoreFaults : Type := mkStoreFaults {
  fetch_fault : option string;
  connect_fault : option string;
  begin_fault : option string;
  insert_fault : nat → option string;
  commit_fault : option string;
  rollback_fault : option string;
  check_orders_fault : option string;
  check_completed_fault : option string
}.

Definition no_faults : StoreFaults :=
  {| fetch_fault := None; connect_fault := None; begin_fault := None;
     insert_fault := λ _, None; commit_fault := None;
     rollback_fault := None; check_orders_fault := None;
     check_completed_fault := None |}.

(** ** Computations with state and exceptions *)

Definition M (A : Type) : Type := World → result A * World.

#[global] Instance M_ret : MRet M := λ A a w, (Ok a, w).
#[global] Instance M_bind : MBind M := λ A B k m w,
  match m w with
  | (Ok a, w') => k a w'
  | (Throw e, w') => (Throw e, w')
  end.

Definition throw {A} (e : exn) : M A := λ w, (Throw e, w).
Definition lift {A} (r : result A) : M A := λ w, (r, w).

(** [try { m } catch (error) { h error }] *)
Definition try_catch {A} (m : M A) (h : exn → M A) : M A := λ w,
  match m w with
  | (Ok a, w') => (Ok a, w')
  | (Throw e, w') => h e w'
  end.

(** [try { m } finally { f }] *)
Definition try_finally {A} (m : M A) (f : M unit) : M A := λ w,
  let '(r, w') := m w in
  match f w' with
  | (Ok _, w'') => (r, w'')
  | (Throw e, w'') => (Throw e, w'')
  end.

(** A step that cannot raise. *)
Definition step {A} (f : World → A * World) : M A := λ w,
  let '(a, w') := f w in (Ok a, w').

Definition emit (e : event) : M unit :=
  step (λ w, (tt, {| orders := orders w; txn := txn w;
                     trace := trace w ++ [e] |})).

Definition raise_if (fault : option string) : M unit :=
  match fault with
  | Some m => throw (StoreError m)
  | None => mret tt
  end.

(** ** Statements *)

Definition view (w : World) : list OrderRow :=
  from_option (λ v, v) (orders w) (txn w).

Definition write_view (v : list OrderRow) (w : World) : World :=
  match txn w with
  | Some _ => {| orders := orders w; txn := Some v; trace := trace w |}
  | None => {| orders := v; txn := None; trace := trace w |}
  end.

(** The id of the derived order of share [i] (counted from zero). *)
Definition split_order_id (originalOrderId : string) (i : nat) : string :=
  originalOrderId +:+ "-split-" +:+ pretty (i + 1)%nat.

(** The item map as JSON carries it to the store and back. *)
Definition JSON_customization (c : Customization jsnum)
  : Customization jsnum :=
  {| qty := JSON_number (qty c);
     price := JSON_number (price c);
     originalPrice := JSON_number <$> originalPrice c;
     cust_rest := cust_rest c |}.

Definition JSON_line (line : ItemLine jsnum) : ItemLine jsnum :=
  {| customizations := JSON_customization <$> customizations line;
     item_rest := item_rest line |}.

Definition JSON_items (items : ItemMap jsnum) : ItemMap jsnum :=
  JSON_line <$> items.

(** The row [INSERT ... SELECT $1, restaurant_id, table_id, $2, ... FROM
    orders WHERE id = $3] makes of a row it selects; [$2] is sent as
    JSON. *)
Definition clone_row (newOrderId : string) (splitItems : ItemMap jsnum)
    (r : OrderRow) : OrderRow :=
  {| row_id := newOrderId;
     restaurant_id := restaurant_id r;
     table_id := table_id r;
     json_data := Some (JSON_items splitItems);
     row_rest := row_rest r |}.

Definition select_by_id (originalOrderId : string) (v : list OrderRow)
  : list OrderRow :=
  filter (λ r, row_id r = originalOrderId) v.

Section Statements.
Variable F : StoreFaults.

(** [pool.query('SELECT * FROM orders WHERE id = $1 AND table_id = $2')] *)
Definition pool_query_order (orderId tableId : string)
  : M (list OrderRow) :=
  emit (EvFetch orderId tableId) ;;
  raise_if (fetch_fault F) ;;
  step (λ w, (filter (λ r, row_id r = orderId ∧ table_id r = tableId)
                     (orders w), w)).

Definition pool_connect : M unit :=
  emit EvConnect ;; raise_if (connect_fault F).

Definition client_query_BEGIN : M unit :=
  emit EvBegin ;;
  raise_if (begin_fault F) ;;
  step (λ w, (tt,
              match txn w with
              | Some _ => w
              | None => {| orders := orders w; txn := Some (orders w);
                           trace := trace w |}
              end)).

Definition client_query_INSERT (i : nat) (newOrderId : string)
    (splitItems : ItemMap jsnum) (originalOrderId : string)
  : M (list OrderRow) :=
  emit (EvInsert newOrderId splitItems originalOrderId) ;;
  raise_if (insert_fault F i) ;;
  step (λ w, let rows := clone_row newOrderId splitItems
                           <$> select_by_id originalOrderId (view w) in
             (rows, write_view (view w ++ rows) w)).

Definition client_query_COMMIT : M unit :=
  emit EvCommit ;;
  raise_if (commit_fault F) ;;
  step (λ w, (tt,
              match txn w with
              | Some v => {| orders := v; txn := None; trace := trace w |}
              | None => w
              end)).

Definition client_query_ROLLBACK : M unit :=
  emit EvRollback ;;
  raise_if (rollback_fault F) ;;
  step (λ w, (tt, {| orders := orders w; txn := None;
                     trace := trace w |})).

Definition client_release : M unit := emit EvRelease.

Definition pool_query_check_orders (restaurantId tableId : string)
  : M unit :=
  emit (EvCheckOrders restaurantId tableId) ;;
  raise_if (check_orders_fault F).

Definition pool_query_check_completed (restaurantId tableId : string)
  : M unit :=
  emit (EvCheckCompleted restaurantId tableId) ;;
  raise_if (check_completed_fault F).
End Statements.

(** ** createSplitOrders and splitBill *)

Record SplitResult : Type := mkSplitResult {
  res_orderId : string;
  res_items : ItemMap jsnum;
  billData : OrderRow
}.

Inductive ResponseBody : Type :=
  | ErrorBody (error : string)
  | SuccessBody (message : string) (results : list SplitResult).

Record Response : Type := mkResponse {
  status : nat;
  body : ResponseBody
}.

(** [res.status(code).json(data)] and [res.json(data)] *)
Definition res_status_json (code : nat) (data : ResponseBody) : Response :=
  {| status := code; body := data |}.
Definition res_json (data : ResponseBody) : Response :=
  {| status := 200; body := data |}.

Definition msg_failed_insert (newOrderId : string) : string :=
  "Failed to create split order " +:+ newOrderId.

(** The text the two copies of the controller share; [afterCommit] is
    what each does between COMMIT and [return results]. *)
Section Controller.
Variable E : Engine.
Variable F : StoreFaults.
Variable afterCommit : OrderRow → M unit.

(** The [for] loop from index [i] on; [results] is the array built so
    far. *)
Fixpoint insert_split_orders (originalOrderId : string) (i : nat)
    (splits : list (ItemMap jsnum)) (results : list SplitResult)
  : M (list SplitResult) :=
  match splits with
  | [] => mret results
  | splitItems :: rest =>
      let newOrderId := split_order_id originalOrderId i in
      rows ← client_query_INSERT F i newOrderId splitItems originalOrderId ;
      match head rows with
      | None => throw (Error (msg_failed_insert newOrderId))
      | Some newOrder =>
          insert_split_orders originalOrderId (S i) rest
            (results ++ [{| res_orderId := newOrderId;
                            res_items := splitItems;
                            billData := newOrder |}])
      end
  end.

Definition createSplitOrders_with (originalOrder : OrderRow)
    (splits : list (ItemMap jsnum)) (tableId originalOrderId : string)
  : M (list SplitResult) :=
  pool_connect F ;;
  try_finally
    (try_catch
       (client_query_BEGIN F ;;
        results ← insert_split_orders originalOrderId 0 splits [] ;
        client_query_COMMIT F ;;
        afterCommit originalOrder ;;
        mret results)
       (λ error, client_query_ROLLBACK F ;; throw error))
    client_release.

(** [req.body] fields read after validation; validation has refused
    every body in which one of them is absent. *)
Definition field {A} (x : option A) (what : string) : M A :=
  match x with
  | Some a => mret a
  | None => throw (TypeError (what +:+ " is undefined"))
  end.

(** The handler answers through [res]; [None] is the run in which the
    engine ran out of memory while the shares were built, so that the
    process ended before any answer and without entering the [catch]. *)
Definition splitBill_with (req_body : SplitRequest jsnum) : M Response :=
  answer ←
    try_catch
      (lift (validateSplitRequest req_body) ;;
       tableId ← field (tableId req_body) "tableId" ;
       orderId ← field (orderId req_body) "orderId" ;
       splitType ← field (splitType req_body) "splitType" ;
       rows ← pool_query_order F orderId tableId ;
       match head rows with
       | None =>
           mret (Some (res_status_json 404 (ErrorBody "Order not found")))
       | Some order =>
           items ← field (json_data order) "order.json_data" ;
           splits ←
             (if bool_decide (splitType = "portion") then
                count ← field (count req_body) "count" ;
                mret (calculatePortionSplit E items count)
              else if bool_decide (splitType = "percentage") then
                percentages ← field (percentages req_body) "percentages" ;
                mret (Returns (calculatePercentageSplit items percentages))
              else throw (TypeError "splits is undefined")) ;
           match splits with
           | Returns splits =>
               results ← createSplitOrders_with order splits tableId
                                                orderId ;
               mret (Some (res_json (SuccessBody "Bill split successful"
                                                 results)))
           | Raises error => throw error
           | Exhausts => mret None
           end
       end)
      (λ error,
         mret (Some (res_status_json 400 (ErrorBody (message error))))) ;
  match answer with
  | Some response => mret response
  | None => throw (Fatal "JavaScript heap out of memory")
  end.
End Controller.

(** *** First copy: completion through the [completeOrder] utility *)
Module Util.
Section Util.
Variable E : Engine.
Variable F : StoreFaults.
(** [completeOrder(restaurantId, tableId, total, paymentMethod)]: what it
    resolves to (truthy or falsy) or throws, and what it does to the
    committed rows. *)
Variable completeOrder :
  string → string → jsnum → string → list OrderRow
  → result bool * list OrderRow.

Definition call_completeOrder (restaurantId tableId : string) (total : jsnum)
    (paymentMethod : string) : M bool := λ w,
  let w1 := {| orders := orders w; txn := txn w;
               trace := trace w
                        ++ [EvComplete restaurantId tableId total
                                       paymentMethod] |} in
  let '(r, db) := completeOrder restaurantId tableId total paymentMethod
                                (orders w1) in
  (r, {| orders := db; txn := txn w1; trace := trace w1 |}).

Definition afterCommit (originalOrder : OrderRow) : M unit :=
  completionResult ← call_completeOrder (restaurant_id originalOrder)
                         (table_id originalOrder) (jnum 0) "split" ;
  if negb completionResult then mret tt else mret tt.

Definition createSplitOrders := createSplitOrders_with F afterCommit.
Definition splitBill := splitBill_with E F afterCommit.
End Util.
End Util.

(** *** Second copy: completion through the [completeOrder] controller *)
Module Ctrl.
Record MockReq : Type := mkMockReq {
  params_restaurantId : string;
  params_tableId : string;
  body_total : jsnum;
  body_paymentMethod : string
}.

Section Ctrl.
Variable E : Engine.
Variable F : StoreFaults.
(** [completeOrderController(mockReq, mockRes)]: the status it gives to
    [mockRes.status(code).json(data)], if it calls that, or what it
    throws, and what it does to the committed rows. *)
Variable completeOrderController :
  MockReq → list OrderRow → result (option nat) * list OrderRow.

Definition call_completeOrderController (mockReq : MockReq)
  : M (option nat) := λ w,
  let w1 := {| orders := orders w; txn := txn w;
               trace := trace w
                        ++ [EvComplete (params_restaurantId mockReq)
                                       (params_tableId mockReq)
                                       (body_total mockReq)
                                       (body_paymentMethod mockReq)] |} in
  let '(r, db) := completeOrderController mockReq (orders w1) in
  (r, {| orders := db; txn := txn w1; trace := trace w1 |}).

Definition afterCommit (originalOrder : OrderRow) : M unit :=
  let mockReq :=
    {| params_restaurantId := restaurant_id originalOrder;
       params_tableId := table_id originalOrder;
       body_total := jnum 0;
       body_paymentMethod := "split" |} in
  try_catch
    (responded ← call_completeOrderController mockReq ;
     let statusCode := from_option (λ code, code) 200%nat responded in
     if bool_decide (400 ≤ statusCode)%nat then mret tt else mret tt)
    (λ error, mret tt) ;;
  try_catch
    (pool_query_check_orders F (restaurant_id originalOrder)
                             (table_id originalOrder))
    (λ error, mret tt) ;;
  try_catch
    (pool_query_check_completed F (restaurant_id originalOrder)
                                (table_id originalOrder))
    (λ error, mret tt).

Definition createSplitOrders := createSplitOrders_with F afterCommit.
Definition splitBill := splitBill_with E F afterCommit.
End Ctrl.
End Ctrl.
(** * Properties *)

(** ** The calculators as maps over the item map *)

Section Shares.
Context {N : Type}.

(** The customization a share holds for customization [c] when its
    quantity becomes [newQty]. *)
Definition share_customization (newQty : N → N) (c : Customization N)
  : Customization N :=
  {| qty := newQty (qty c); price := price c;
     originalPrice := Some (price c); cust_rest := cust_rest c |}.

Definition share_line (newQty : N → N) (line : ItemLine N) : ItemLine N :=
  {| customizations := share_customization newQty <$> customizations line;
     item_rest := item_rest line |}.

(** The share of an item map: every item but the one named [__proto__],
    which the assignment in the calculators does not store. *)
Definition share_of (newQty : N → N) (items : ItemMap N) : ItemMap N :=
  share_line newQty <$> delete "__proto__" items.


End Shares.

(** ** Requests *)

Section Requests.
Context {N : Type} `{Arith N}.

(** The test the validator makes on the sum of the percentages:
    [Math.abs(sum - 100) > 0.01], as the arithmetic computes it. *)
Definition sum_off_target (ps : list N) : bool :=
  num_ltb num_hundredth
          (num_abs (num_sub (foldl (λ acc curr, num_add acc curr)
                                   (num_of_Z 0) ps)
                            (num_of_Z 100))).

(** The requests the validator lets through. *)
Definition valid_request (body : SplitRequest N) : Prop :=
  falsy_str (tableId body) = false
  ∧ falsy_str (orderId body) = false
  ∧ ((splitType body = Some "portion"
      ∧ ∃ c, count body = Some c
          ∧ num_falsy c = false
          ∧ num_ltb c (num_of_Z 1) = false
          ∧ Number_isInteger c = true)
     ∨ (splitType body = Some "percentage"
        ∧ ∃ ps, percentages body = Some ps
            ∧ length ps ≠ 0%nat
            ∧ sum_off_target ps = false
            ∧ Forall (λ p, num_leb p (num_of_Z 0) = false) ps)).


(** A percentage request for table [table-1] and order [order-123]. *)
Definition percentage_request (ps : list N) : SplitRequest N :=
  {| tableId := Some "table-1"; orderId := Some "order-123";
     splitType := Some "percentage"; count := None;
     percentages := Some ps |}.

(** A request with another [percentages] field, or another [count]. *)
Definition with_percentages (body : SplitRequest N)
    (ps : option (list N)) : SplitRequest N :=
  {| tableId := tableId body; orderId := orderId body;
     splitType := splitType body; count := count body;
     percentages := ps |}.

Definition with_count (body : SplitRequest N) (c : option N)
  : SplitRequest N :=
  {| tableId := tableId body; orderId := orderId body;
     splitType := splitType body; count := c;
     percentages := percentages body |}.
End Requests.

(** ** Exact arithmetic *)


Definition Qcsum (l : list Qc) : Qc := foldr Qcplus 0%Qc l.

(** The value of an item line, quantity times unit price over its
    customizations, and the value a share holds for an item. *)
Definition line_total (line : ItemLine Qc) : Qc :=
  Qcsum ((λ c, qty c * price c)%Qc <$> customizations line).

Definition share_line_total (itemId : string) (share : ItemMap Qc) : Qc :=
  from_option line_total 0%Qc (share !! itemId).

(** ** What JSON carries unchanged *)

(** A number that survives [JSON.stringify] and [JSON.parse]: null, or a
    finite double other than the negative zero. *)
Definition JSON_exact (x : jsnum) : Prop := JSON_number x = x.

(** An item map all of whose numbers do. *)
Definition JSON_exact_items (items : ItemMap jsnum) : Prop :=
  ∀ itemId line c,
    items !! itemId = Some line →
    c ∈ customizations line →
    JSON_exact (qty c) ∧ JSON_exact (price c)
    ∧ ∀ p, originalPrice c = Some p → JSON_exact p.

(** ** Runs of the transaction *)

(** What the inserts of shares [splits], numbered from [i], add and
    return when each of them goes through: the rows, one clone of every
    original row per share, the result entries, and the statements. *)
Definition derived_rows (originalOrderId : string)
    (originals : list OrderRow) (i : nat) (splits : list (ItemMap jsnum))
  : list OrderRow :=
  mjoin (imap (λ k splitItems,
                 clone_row (split_order_id originalOrderId (i + k))
                           splitItems <$> originals)
              splits).

Definition derived_results (originalOrderId : string) (first : OrderRow)
    (i : nat) (splits : list (ItemMap jsnum)) : list SplitResult :=
  imap (λ k splitItems,
          {| res_orderId := split_order_id originalOrderId (i + k);
             res_items := splitItems;
             billData := clone_row (split_order_id originalOrderId (i + k))
                                   splitItems first |})
       splits.

Definition insert_events (originalOrderId : string) (i : nat)
    (splits : list (ItemMap jsnum)) : list event :=
  imap (λ k splitItems,
          EvInsert (split_order_id originalOrderId (i + k)) splitItems
                   originalOrderId)
       splits.

Definition is_insert (ev : event) : bool :=
  match ev with EvInsert _ _ _ => true | _ => false end.

Definition is_complete (ev : event) : bool :=
  match ev with EvComplete _ _ _ _ => true | _ => false end.

(** Some insert of the operation fails: the store raises an error on
    one of them, or the original row is not there to select from, so
    that the insert returns no row. *)
Definition inserts_fail (F : StoreFaults) (originalOrderId : string)
    (db : list OrderRow) (splits : list (ItemMap jsnum)) : Prop :=
  (∃ k, (k < length splits)%nat ∧ insert_fault F k ≠ None)
  ∨ (splits ≠ [] ∧ select_by_id originalOrderId db = []).

(** Every statement of the transaction goes through. *)
Definition transaction_commits (F : StoreFaults) (originalOrderId : string)
    (db : list OrderRow) (splits : list (ItemMap jsnum)) : Prop :=
  connect_fault F = None
  ∧ begin_fault F = None
  ∧ (∀ k, (k < length splits)%nat → insert_fault F k = None)
  ∧ (splits = [] ∨ select_by_id originalOrderId db ≠ [])
  ∧ commit_fault F = None.

(** Some statement of the transaction fails. *)
Definition transaction_fails (F : StoreFaults) (originalOrderId : string)
    (db : list OrderRow) (splits : list (ItemMap jsnum)) : Prop :=
  connect_fault F ≠ None ∨ begin_fault F ≠ None
  ∨ inserts_fail F originalOrderId db splits ∨ commit_fault F ≠ None.

(** The result list of an operation whose inserts all go through; each
    entry carries the first row its insert returned. *)
Definition expected_results (originalOrderId : string)
    (db : list OrderRow) (splits : list (ItemMap jsnum))
  : list SplitResult :=
  match head (select_by_id originalOrderId db) with
  | Some first => derived_results originalOrderId first 0 splits
  | None => []
  end.

(** The world right after COMMIT, when the operation started with rows
    [db] and trace [t]. *)
Definition committed_world (db : list OrderRow) (t : list event)
    (originalOrderId : string) (splits : list (ItemMap jsnum)) : World :=
  {| orders := db ++ derived_rows originalOrderId
                       (select_by_id originalOrderId db) 0 splits;
     txn := None;
     trace := t ++ [EvConnect; EvBegin]
                ++ insert_events originalOrderId 0 splits ++ [EvCommit] |}.

(** The statement or call an event stands for. *)
Definition event_name (ev : event) : string :=
  match ev with
  | EvFetch _ _ => "SELECT order"
  | EvConnect => "connect"
  | EvBegin => "BEGIN"
  | EvInsert _ _ _ => "INSERT"
  | EvCommit => "COMMIT"
  | EvRollback => "ROLLBACK"
  | EvRelease => "release"
  | EvComplete _ _ _ _ => "complete order"
  | EvCheckOrders _ _ => "SELECT orders of table"
  | EvCheckCompleted _ _ => "SELECT completed orders"
  end.


(** The events of a connection, and the statements sent on one. *)
Definition is_release (ev : event) : bool :=
  match ev with EvRelease => true | _ => false end.

Definition is_connect (ev : event) : bool :=
  match ev with EvConnect => true | _ => false end.

Definition is_rollback (ev : event) : bool :=
  match ev with EvRollback => true | _ => false end.

Definition is_txn_statement (ev : event) : bool :=
  match ev with
  | EvBegin | EvInsert _ _ _ | EvCommit => true
  | _ => false
  end.

(** The lookup of the workflow finds no order: the request is valid, the
    store answers, and no row has the order id and the table id. *)
Definition order_not_found (F : StoreFaults) (req_body : SplitRequest jsnum)
    (w : World) : bool :=
  is_ok (validateSplitRequest req_body)
  && bool_decide (fetch_fault F = None)
  && match tableId req_body, orderId req_body with
     | Some t, Some o =>
         match filter (λ r, row_id r = o ∧ table_id r = t) (orders w) with
         | [] => true
         | _ :: _ => false
         end
     | _, _ => false
     end.

(** The shares of a request for the items of the order found, when the
    calculator returns them. *)
Definition request_shares (E : Engine) (req_body : SplitRequest jsnum)
    (items : ItemMap jsnum) (shares : list (ItemMap jsnum)) : Prop :=
  (splitType req_body = Some "portion"
   ∧ ∃ c, count req_body = Some c
          ∧ calculatePortionSplit E items c = Returns shares)
  ∨ (splitType req_body = Some "percentage"
     ∧ ∃ ps, percentages req_body = Some ps
             ∧ shares = calculatePercentageSplit items ps).

(** The choice of the calculator as a value: what the workflow computes
    for split type [st] between the lookup and the transaction. *)
Definition request_splits (E : Engine) (st : string)
    (req_body : SplitRequest jsnum) (items : ItemMap jsnum)
  : result (outcome (list (ItemMap jsnum))) :=
  if bool_decide (st = "portion") then
    match count req_body with
    | Some c => Ok (calculatePortionSplit E items c)
    | None => Throw (TypeError ("count" +:+ " is undefined"))
    end
  else if bool_decide (st = "percentage") then
    match percentages req_body with
    | Some ps => Ok (Returns (calculatePercentageSplit items ps))
    | None => Throw (TypeError ("percentages" +:+ " is undefined"))
    end
  else Throw (TypeError "splits is undefined").

(** The answer that relays the outcome of [createSplitOrders]. *)
Definition answer_of (r : result (list SplitResult)) : Response :=
  match r with
  | Ok results => res_json (SuccessBody "Bill split successful" results)
  | Throw e => res_status_json 400 (ErrorBody (message e))
  end.

(** ** Sample data *)

(** An engine whose heap holds arrays of up to a million objects. *)
Definition sample_engine : Engine := {| array_capacity := 1000000 |}.

Definition sample_customization : Customization jsnum :=
  {| qty := jnum 9; price := jnum 10; originalPrice := None;
     cust_rest := [("name", "large")] |}.
Definition sample_line : ItemLine jsnum :=
  {| customizations := [sample_customization];
     item_rest := [("name", "pizza")] |}.
Definition sample_items : ItemMap jsnum := {[ "item-1" := sample_line ]}.
Definition sample_order : OrderRow :=
  {| row_id := "order-123"; restaurant_id := "rest-1";
     table_id := "table-1"; json_data := Some sample_items;
     row_rest := [("invoice_number", "42")] |}.
Definition sample_portion_request : SplitRequest jsnum :=
  {| tableId := Some "table-1"; orderId := Some "order-123";
     splitType := Some "portion"; count := Some (jnum 2);
     percentages := None |}.

(** The same items with exact quantities. *)
Definition exact_customization : Customization Qc :=
  {| qty := num 9; price := num 10; originalPrice := None;
     cust_rest := [("name", "large")] |}.
Definition exact_line : ItemLine Qc :=
  {| customizations := [exact_customization];
     item_rest := [("name", "pizza")] |}.
Definition exact_items : ItemMap Qc := {[ "item-1" := exact_line ]}.

(** A store that refuses the insert of the second share. *)
Definition second_insert_refused : StoreFaults :=
  {| fetch_fault := None; connect_fault := None; begin_fault := None;
     insert_fault := λ i, if bool_decide (i = 1%nat)
                          then Some "deadlock detected" else None;
     commit_fault := None; rollback_fault := None;
     check_orders_fault := None; check_completed_fault := None |}.
(** A store that refuses every ROLLBACK and the first insert. *)
Definition rollback_refused : StoreFaults :=
  {| fetch_fault := None; connect_fault := None; begin_fault := None;
     insert_fault := λ i, if bool_decide (i = 0%nat)
                          then Some "unique violation" else None;
     commit_fault := None;
     rollback_fault := Some "connection terminated";
     check_orders_fault := None; check_completed_fault := None |}.
(** A store that refuses the first insert. *)
Definition first_insert_refused : StoreFaults :=
  {| fetch_fault := None; connect_fault := None; begin_fault := None;
     insert_fault := λ i, if bool_decide (i = 0%nat)
                          then Some "unique violation" else None;
     commit_fault := None; rollback_fault := None;
     check_orders_fault := None; check_completed_fault := None |}.
(** A store that refuses the lookup of the order. *)
Definition fetch_refused : StoreFaults :=
  {| fetch_fault := Some "connection refused"; connect_fault := None;
     begin_fault := None; insert_fault := λ _, None;
     commit_fault := None; rollback_fault := None;
     check_orders_fault := None; check_completed_fault := None |}.

(** Collaborators: one that completes the order and leaves the rows
    alone, one that reports failure without throwing, one that throws, in
    each of the two interfaces. *)
Definition completeOrder_ok (restaurantId tableId : string) (total : jsnum)
    (paymentMethod : string) (db : list OrderRow)
  : result bool * list OrderRow := (Ok true, db).
Definition completeOrder_falsy (restaurantId tableId : string)
    (total : jsnum) (paymentMethod : string) (db : list OrderRow)
  : result bool * list OrderRow := (Ok false, db).
Definition completeOrder_throws (restaurantId tableId : string)
    (total : jsnum) (paymentMethod : string) (db : list OrderRow)
  : result bool * list OrderRow := (Throw (Error "completion failed"), db).
Definition controller_ok (mockReq : Ctrl.MockReq) (db : list OrderRow)
  : result (option nat) * list OrderRow := (Ok (Some 200%nat), db).
Definition controller_throws (mockReq : Ctrl.MockReq) (db : list OrderRow)
  : result (option nat) * list OrderRow :=
  (Throw (Error "completion failed"), db).

(** ** The calculators, in any arithmetic *)

Section CalculatorFacts.
Context {N : Type} `{Arith N}.

Lemma foldl_object_set_lookup (f : ItemLine N → ItemLine N)
    (l : list (string * ItemLine N)) (m0 : ItemMap N) (k : string) :
  NoDup l.*1 →
  foldl (λ (m : ItemMap N) '(key, v), object_set key (f v) m) m0 l !! k
  = if decide (k = "__proto__") then m0 !! k
    else match (list_to_map l : ItemMap N) !! k with
         | Some v => Some (f v)
         | None => m0 !! k
         end.
Proof.
  revert m0. induction l as [|[k0 v0] l IH]; intros m0 Hnd.
  - cbn [foldl list_to_map foldr]. rewrite lookup_empty.
    by destruct (decide _).
  - rewrite fmap_cons in Hnd. apply NoDup_cons in Hnd as [Hk0 Hnd].
    cbn [foldl list_to_map foldr fst snd]. rewrite IH by done.
    unfold object_set. destruct (decide (k = "__proto__")) as [->|Hk].
    + destruct (bool_decide (k0 = "__proto__")) eqn:Hp; [done|].
      apply bool_decide_eq_false in Hp. by rewrite lookup_insert_ne.
    + destruct (decide (k = k0)) as [->|Hne].
      * rewrite (not_elem_of_list_to_map_1 l k0) by done.
        rewrite (bool_decide_false (k0 = "__proto__")) by done.
        by rewrite !lookup_insert_eq.
      * rewrite (lookup_insert_ne (list_to_map l)) by done.
        destruct (bool_decide (k0 = "__proto__")); [done|].
        by rewrite lookup_insert_ne.
Qed.

Lemma lookup_share_of (newQty : N → N) (items : ItemMap N)
    (itemId : string) :
  share_of newQty items !! itemId
  = if decide (itemId = "__proto__") then None
    else share_line newQty <$> items !! itemId.
Proof.
  unfold share_of. rewrite lookup_fmap.
  destruct (decide (itemId = "__proto__")) as [->|Hne].
  - by rewrite lookup_delete_eq.
  - by rewrite lookup_delete_ne.
Qed.

Lemma lookup_share_of_ne (newQty : N → N) (items : ItemMap N)
    (itemId : string) :
  itemId ≠ "__proto__" →
  share_of newQty items !! itemId = share_line newQty <$> items !! itemId.
Proof. intros Hne. rewrite lookup_share_of. by destruct (decide _). Qed.

Lemma foldl_object_set_share_of (newQty : N → N) (items : ItemMap N) :
  foldl (λ (m : ItemMap N) '(key, v),
           object_set key (share_line newQty v) m)
        ∅ (map_to_list items)
  = share_of newQty items.
Proof.
  apply map_eq. intros k.
  rewrite foldl_object_set_lookup by apply NoDup_fst_map_to_list.
  rewrite list_to_map_to_list, lookup_share_of, lookup_empty.
  destruct (decide _); [done|]. by destruct (items !! k).
Qed.

Lemma foldl_replicate_object_set (f : ItemLine N → ItemLine N)
    (l : list (string * ItemLine N)) (n : nat) (m0 : ItemMap N) :
  foldl (λ (splits : list (ItemMap N)) '(key, v),
           (λ split : ItemMap N, object_set key (f v) split) <$> splits)
        (replicate n m0) l
  = replicate n
      (foldl (λ (m : ItemMap N) '(key, v), object_set key (f v) m) m0 l).
Proof.
  revert m0. induction l as [|[k v] l IH]; intros m0; simpl; [done|].
  by rewrite fmap_replicate, IH.
Qed.

(** The three ways [calculatePortionSplit] ends. *)
Lemma calculatePortionSplit_cases (E : Engine) (items : ItemMap N)
    (count : N) :
  calculatePortionSplit E items count
  = match Array_length count with
    | Ok n =>
        if bool_decide (n ≤ array_capacity E)%Z
        then Returns (replicate (Z.to_nat n)
                        (share_of (λ q, num_div q count) items))
        else Exhausts
    | Throw e => Raises e
    end.
Proof.
  unfold calculatePortionSplit, Array_of_empty_objects.
  destruct (Array_length count) as [n|e]; [|done].
  destruct (bool_decide (n ≤ array_capacity E)%Z); [|done].
  f_equal. rewrite <-(foldl_object_set_share_of (λ q, num_div q count)).
  exact (foldl_replicate_object_set (share_line (λ q, num_div q count))
           (map_to_list items) (Z.to_nat n) ∅).
Qed.

Lemma Array_length_number (count : N) (n : Z) :
  num_is_number count = true →
  num_toZ count = Some n →
  Array_length count
  = if bool_decide (0 ≤ n ≤ max_array_length)%Z then Ok n
    else Throw (RangeError "Invalid array length").
Proof. intros Hnum Hn. unfold Array_length. by rewrite Hnum, Hn. Qed.

Lemma Array_length_Ok (count : N) (n : Z) :
  Array_length count = Ok n →
  (0 ≤ n ≤ max_array_length)%Z
  ∧ (num_is_number count = true → num_toZ count = Some n).
Proof.
  unfold Array_length. destruct (num_is_number count).
  - destruct (num_toZ count) as [n'|]; [|discriminate].
    destruct (bool_decide (0 ≤ n' ≤ max_array_length)%Z) eqn:Hmax;
      [|discriminate].
    apply bool_decide_eq_true in Hmax. by intros [= <-].
  - intros [= <-]. split; [unfold max_array_length; lia|done].
Qed.

Lemma calculatePortionSplit_Returns (E : Engine) (items : ItemMap N)
    (count : N) (n : Z) :
  num_is_number count = true →
  num_toZ count = Some n →
  (0 ≤ n ≤ max_array_length)%Z →
  (n ≤ array_capacity E)%Z →
  calculatePortionSplit E items count
  = Returns (replicate (Z.to_nat n)
               (share_of (λ q, num_div q count) items)).
Proof.
  intros Hnum Hn Hmax Hcap.
  rewrite calculatePortionSplit_cases, (Array_length_number _ _ Hnum Hn).
  by rewrite !bool_decide_true.
Qed.

Lemma calculatePortionSplit_Returns_inv (E : Engine) (items : ItemMap N)
    (count : N) (shares : list (ItemMap N)) :
  calculatePortionSplit E items count = Returns shares →
  ∃ n, Array_length count = Ok n
       ∧ (0 ≤ n ≤ max_array_length)%Z
       ∧ (n ≤ array_capacity E)%Z
       ∧ shares = replicate (Z.to_nat n)
                    (share_of (λ q, num_div q count) items).
Proof.
  rewrite calculatePortionSplit_cases.
  destruct (Array_length count) as [n|e] eqn:Hlen; [|discriminate].
  destruct (bool_decide (n ≤ array_capacity E)%Z) eqn:Hcap;
    [|discriminate].
  apply bool_decide_eq_true in Hcap.
  intros [= <-]. exists n. by destruct (Array_length_Ok _ _ Hlen).
Qed.

Lemma calculatePortionSplit_too_long (E : Engine) (items : ItemMap N)
    (count : N) (n : Z) :
  num_is_number count = true →
  num_toZ count = Some n →
  (max_array_length < n)%Z →
  calculatePortionSplit E items count
  = Raises (RangeError "Invalid array length").
Proof.
  intros Hnum Hn Hlt.
  rewrite calculatePortionSplit_cases, (Array_length_number _ _ Hnum Hn).
  by rewrite bool_decide_false by lia.
Qed.


Lemma calculatePercentageSplit_share_of (items : ItemMap N)
    (ps : list N) :
  calculatePercentageSplit items ps
  = (λ p, share_of (λ q, num_div (num_mul q p) (num_of_Z 100)) items)
      <$> ps.
Proof.
  unfold calculatePercentageSplit. apply list_fmap_ext; intros _ p _.
  exact (foldl_object_set_share_of
           (λ q, num_div (num_mul q p) (num_of_Z 100)) items).
Qed.

(** *** Shape of a share *)



Lemma share_of_ext (g1 g2 : N → N) (items : ItemMap N) :
  (∀ q, g1 q = g2 q) → share_of g1 items = share_of g2 items.
Proof.
  intros Hg. unfold share_of. apply map_fmap_ext. intros _ line _.
  unfold share_line. f_equal. apply list_fmap_ext. intros _ c _.
  unfold share_customization. by rewrite Hg.
Qed.

Lemma share_of_compose (g1 g2 : N → N) (items : ItemMap N) :
  share_of g2 (share_of g1 items) = share_of (λ q, g2 (g1 q)) items.
Proof.
  unfold share_of. rewrite <-fmap_delete, delete_delete_eq.
  rewrite <-map_fmap_compose. apply map_fmap_ext.
  intros _ line _. unfold share_line. simpl. f_equal.
  rewrite <-list_fmap_compose. by apply list_fmap_ext.
Qed.
End CalculatorFacts.

(** ** The calculators in exact arithmetic *)

Section Exact.
Local Open Scope Qc_scope.

Lemma exact_toZ_num (n : Z) : num_toZ (num n) = Some n.
Proof.
  cbn [num_toZ exact_arith].
  change (this (num n)) with (inject_Z n).
  change (Qden (inject_Z n)) with 1%positive.
  change (Qnum (inject_Z n)) with n.
  by rewrite bool_decide_true.
Qed.

Lemma exact_portion_split (E : Engine) (items : ItemMap Qc) (n : Z) :
  (0 ≤ n ≤ max_array_length)%Z →
  (n ≤ array_capacity E)%Z →
  calculatePortionSplit E items (num n)
  = Returns (replicate (Z.to_nat n) (share_of (λ q, q / num n) items)).
Proof.
  intros Hn Hcap.
  exact (calculatePortionSplit_Returns E items (num n) n eq_refl
           (exact_toZ_num n) Hn Hcap).
Qed.

Lemma exact_portion_split_inv (E : Engine) (items : ItemMap Qc) (n : Z)
    (shares : list (ItemMap Qc)) :
  calculatePortionSplit E items (num n) = Returns shares →
  (0 ≤ n ≤ max_array_length)%Z
  ∧ (n ≤ array_capacity E)%Z
  ∧ shares = replicate (Z.to_nat n) (share_of (λ q, q / num n) items).
Proof.
  intros (n' & Hn' & Hmax & Hcap & ->)%calculatePortionSplit_Returns_inv.
  apply Array_length_Ok in Hn' as [_ Hn']. specialize (Hn' eq_refl).
  rewrite exact_toZ_num in Hn'. injection Hn' as <-. done.
Qed.

Lemma exact_percentage_split (items : ItemMap Qc) (ps : list Qc) :
  calculatePercentageSplit items ps
  = (λ p, share_of (λ q, (q * p) / num 100) items) <$> ps.
Proof. exact (calculatePercentageSplit_share_of items ps). Qed.


Lemma Qcsum_nil : Qcsum [] = 0.
Proof. reflexivity. Qed.

Lemma Qcsum_cons (x : Qc) (l : list Qc) : Qcsum (x :: l) = x + Qcsum l.
Proof. reflexivity. Qed.

Lemma Qcsum_replicate (n : nat) (x : Qc) :
  Qcsum (replicate n x) = num (Z.of_nat n) * x.
Proof.
  unfold num. induction n as [|n IH].
  - change (Z.of_nat 0) with 0%Z. rewrite Z2Qc_inj_0.
    cbn [replicate]. rewrite Qcsum_nil. ring.
  - rewrite Nat2Z.inj_succ, <-Z.add_1_r, Z2Qc_inj_add, Z2Qc_inj_1.
    cbn [replicate]. rewrite Qcsum_cons, IH. ring.
Qed.

Lemma num_nonzero (n : Z) : (1 ≤ n)%Z → num n ≠ 0.
Proof.
  intros Hn Heq. unfold num in Heq. rewrite <-Z2Qc_inj_0 in Heq.
  apply Z2Qc_inj in Heq. lia.
Qed.

Lemma Qcsum_scale (q d : Qc) (ps : list Qc) :
  Qcsum ((λ p, (q * p) / d) <$> ps) = (q * Qcsum ps) / d.
Proof.
  induction ps as [|p ps IH].
  - rewrite fmap_nil, Qcsum_nil. unfold Qcdiv. ring.
  - rewrite fmap_cons, !Qcsum_cons, IH. unfold Qcdiv. ring.
Qed.

(** [percentages.reduce((acc, curr) => acc + curr, 0)] adds from the
    left; in exact arithmetic the total is the same. *)
Lemma reduce_sum_Qcsum (ps : list Qc) :
  foldl (λ acc curr, acc + curr) 0 ps = Qcsum ps.
Proof.
  assert (∀ a, foldl (λ acc curr, acc + curr) a ps = a + Qcsum ps) as H.
  { induction ps as [|p ps IH]; intros a; cbn [foldl].
    - rewrite Qcsum_nil. ring.
    - rewrite IH, Qcsum_cons. ring. }
  rewrite H. ring.
Qed.




Lemma line_total_share_line (g : Qc → Qc) (k : Qc) (line : ItemLine Qc) :
  (∀ q, g q = q * k) →
  line_total (share_line g line) = line_total line * k.
Proof.
  intros Hg. unfold line_total, share_line. simpl.
  induction (customizations line) as [|c cs IH].
  - rewrite !fmap_nil, Qcsum_nil. ring.
  - rewrite !fmap_cons, !Qcsum_cons, IH. simpl. rewrite Hg. ring.
Qed.

Lemma share_line_total_share_of (g : Qc → Qc) (k : Qc)
    (items : ItemMap Qc) (itemId : string) (line : ItemLine Qc) :
  (∀ q, g q = q * k) →
  itemId ≠ "__proto__" →
  items !! itemId = Some line →
  share_line_total itemId (share_of g items) = line_total line * k.
Proof.
  intros Hg Hne Hline. unfold share_line_total.
  rewrite lookup_share_of_ne, Hline by done. simpl.
  by apply line_total_share_line.
Qed.
End Exact.
(** ** Counts *)

Lemma dnum_1 : dnum 1 = S754_finite false 4503599627370496 (-52).
Proof. reflexivity. Qed.

Lemma isInteger_toZ {N} `{Arith N} (x : N) :
  Number_isInteger x = true ↔ ∃ n, num_toZ x = Some n.
Proof.
  unfold Number_isInteger. destruct (num_toZ x) as [n|].
  - split; [by eexists|done].
  - split; [done|by intros [? ?]].
Qed.

Lemma jsnum_toZ_number (c : jsnum) (n : Z) :
  num_toZ c = Some n → num_is_number c = true.
Proof. by destruct c. Qed.

(** A number that is an integer, is not falsy and is not below one is a
    positive integer. *)
Lemma validated_count_positive (c : jsnum) (n : Z) :
  num_falsy c = false →
  num_ltb c (num_of_Z 1) = false →
  num_toZ c = Some n →
  (1 ≤ n)%Z.
Proof.
  destruct c as [d|]; [|discriminate].
  cbn [num_falsy num_ltb num_of_Z num_toZ jsnum_arith jnum ToNumber].
  rewrite dnum_1. destruct d as [s|s| |s m e]; try discriminate.
  intros _ Hlt Hn. destruct s; [discriminate Hlt|].
  cbn [double_toZ] in Hn.
  destruct (bool_decide (0 ≤ e)%Z) eqn:He.
  - apply bool_decide_eq_true in He. injection Hn as <-.
    pose proof (Z.pow_pos_nonneg 2 e ltac:(lia) He). nia.
  - apply bool_decide_eq_false in He.
    destruct (bool_decide (Z.pos m mod 2 ^ (- e) = 0)%Z) eqn:Hm;
      [|discriminate Hn].
    apply bool_decide_eq_true in Hm. injection Hn as <-.
    pose proof (Z.pow_pos_nonneg 2 (- e) ltac:(lia) ltac:(lia)) as Hd.
    pose proof (Z.div_mod (Z.pos m) (2 ^ (- e)) ltac:(lia)) as Hdm.
    rewrite Hm in Hdm. nia.
Qed.

(** ** Claims about the calculators *)









(** ** The validator *)

Section ValidatorFacts.
Context {N : Type} `{Arith N}.


Lemma validate_ok_inv (body : SplitRequest N) :
  validateSplitRequest body = Ok tt →
  valid_request body.
Proof.
  unfold validateSplitRequest, valid_request. intros Hv.
  destruct (falsy_str (tableId body)) eqn:Ht; [discriminate Hv|].
  destruct (falsy_str (orderId body)) eqn:Ho; [discriminate Hv|].
  destruct (splitType body) as [st|] eqn:Hst; [|discriminate Hv].
  destruct (falsy_str (Some st)) eqn:Hs; [discriminate Hv|].
  cbn [orb when_throw mbind result_bind rbind] in Hv.
  destruct (includes _ (Some st)) eqn:Hinc; [|discriminate Hv].
  cbn [negb when_throw mbind result_bind rbind] in Hv.
  apply bool_decide_eq_true in Hinc.
  split_and!; [done|done|].
  apply elem_of_cons in Hinc as [->|Hinc]; [left|right].
  - rewrite (bool_decide_true (Some "portion" = Some "portion")) in Hv
      by done.
    rewrite (bool_decide_false (Some "portion" = Some "percentage")) in Hv
      by done.
    destruct (count body) as [c|]; [|discriminate Hv].
    cbn [falsy_num from_option] in Hv.
    destruct (num_falsy c) eqn:Hf; [discriminate Hv|].
    destruct (num_ltb c (num_of_Z 1)) eqn:Hlt; [discriminate Hv|].
    destruct (Number_isInteger c) eqn:Hint; [|discriminate Hv].
    split; [done|]. by exists c.
  - apply list_elem_of_singleton in Hinc as ->.
    rewrite (bool_decide_false (Some "percentage" = Some "portion")) in Hv
      by done.
    rewrite (bool_decide_true (Some "percentage" = Some "percentage")) in Hv
      by done.
    cbn [when_throw mbind result_bind rbind] in Hv.
    destruct (percentages body) as [ps|]; [|discriminate Hv].
    destruct (bool_decide (length ps = 0%nat)) eqn:Hlen; [discriminate Hv|].
    apply bool_decide_eq_false in Hlen.
    cbn [when_throw mbind result_bind rbind] in Hv.
    destruct (num_ltb num_hundredth _) eqn:Hsum; [discriminate Hv|].
    cbn [when_throw mbind result_bind rbind] in Hv.
    destruct (existsb _ ps) eqn:Hex; [discriminate Hv|].
    split; [done|]. exists ps. split_and!; [done|done|exact Hsum|].
    apply Forall_forall. intros p Hp.
    destruct (num_leb p (num_of_Z 0)) eqn:Hle; [|done].
    apply not_true_iff_false in Hex. exfalso. apply Hex.
    apply existsb_exists. exists p. split; [by apply list_elem_of_In|done].
Qed.

Lemma validate_valid (body : SplitRequest N) :
  valid_request body → validateSplitRequest body = Ok tt.
Proof.
  intros (Ht & Ho & Hs). unfold validateSplitRequest. rewrite Ht, Ho.
  destruct Hs as [[Hs (c & Hc & Hf & Hlt & Hint)]
                 |[Hs (ps & Hps & Hlen & Hsum & Hpos)]];
    rewrite Hs; cbn [falsy_str includes].
  - rewrite (bool_decide_false ("portion" = EmptyString)) by done.
    rewrite (bool_decide_true ("portion" ∈ _))
      by (apply elem_of_cons; by left).
    rewrite (bool_decide_true (Some "portion" = Some "portion")) by done.
    rewrite (bool_decide_false (Some "portion" = Some "percentage"))
      by done.
    rewrite Hc. cbn [falsy_num from_option]. by rewrite Hf, Hlt, Hint.
  - rewrite (bool_decide_false ("percentage" = EmptyString)) by done.
    rewrite (bool_decide_true ("percentage" ∈ _))
      by (apply elem_of_cons; right; apply elem_of_cons; by left).
    rewrite (bool_decide_false (Some "percentage" = Some "portion"))
      by done.
    rewrite (bool_decide_true (Some "percentage" = Some "percentage"))
      by done.
    rewrite Hps. cbn [orb negb when_throw mbind result_bind rbind].
    rewrite (bool_decide_false (length ps = 0%nat)) by done.
    cbn [when_throw mbind result_bind rbind].
    unfold sum_off_target in Hsum. rewrite Hsum.
    cbn [when_throw mbind result_bind rbind].
    replace (existsb _ ps) with false; [done|].
    symmetry. apply not_true_iff_false. intros Hex.
    apply existsb_exists in Hex as (p & Hp%list_elem_of_In & Hle).
    rewrite Forall_forall in Hpos. apply Hpos in Hp. congruence.
Qed.



Lemma validated_fields (req_body : SplitRequest N) :
  validateSplitRequest req_body = Ok tt →
  ∃ tId oId st,
    tableId req_body = Some tId ∧ orderId req_body = Some oId
    ∧ splitType req_body = Some st.
Proof.
  intros (Ht & Ho & Hs)%validate_ok_inv.
  destruct (tableId req_body) as [tId|]; [|discriminate Ht].
  destruct (orderId req_body) as [oId|]; [|discriminate Ho].
  destruct Hs as [[-> _]|[-> _]]; by do 3 eexists.
Qed.

(** A percentage request with its identifiers, up to the checks on the
    percentages. *)
Lemma validate_percentages (body : SplitRequest N) (ps : list N) :
  falsy_str (tableId body) = false →
  falsy_str (orderId body) = false →
  splitType body = Some "percentage" →
  percentages body = Some ps →
  ps ≠ [] →
  validateSplitRequest body
  = (when_throw (sum_off_target ps) msg_sum ;;
     when_throw (existsb (λ p, num_leb p (num_of_Z 0)) ps) msg_positive).
Proof.
  intros Ht Ho Hs Hps Hne. unfold validateSplitRequest.
  rewrite Ht, Ho, Hs, Hps. cbn [falsy_str includes].
  rewrite (bool_decide_false ("percentage" = EmptyString)) by done.
  rewrite (bool_decide_true ("percentage" ∈ _))
    by (apply elem_of_cons; right; apply elem_of_cons; by left).
  rewrite (bool_decide_false (Some "percentage" = Some "portion")) by done.
  rewrite (bool_decide_true (Some "percentage" = Some "percentage"))
    by done.
  cbn [orb negb when_throw mbind result_bind rbind].
  rewrite (bool_decide_false (length ps = 0%nat)) by (by destruct ps).
  reflexivity.
Qed.
End ValidatorFacts.

Lemma bind_run {A B} (m : M A) (k : A → M B) (w : World) :
  (m ≫= k) w
  = match m w with
    | (Ok a, w') => k a w'
    | (Throw e, w') => (Throw e, w')
    end.
Proof. reflexivity. Qed.

Lemma bind_ret_run {A B} (a : A) (k : A → M B) (w : World) :
  (mret a ≫= k) w = k a w.
Proof. reflexivity. Qed.

Lemma try_catch_run {A} (m : M A) (h : exn → M A) (w : World) :
  try_catch m h w
  = match m w with
    | (Ok a, w') => (Ok a, w')
    | (Throw e, w') => h e w'
    end.
Proof. reflexivity. Qed.

Lemma try_finally_run {A} (m : M A) (f : M unit) (w : World) :
  try_finally m f w
  = match f (m w).2 with
    | (Ok _, w'') => ((m w).1, w'')
    | (Throw e, w'') => (Throw e, w'')
    end.
Proof. unfold try_finally. by destruct (m w). Qed.

Lemma splitBill_with_invalid (E : Engine) (F : StoreFaults)
    (afterCommit : OrderRow → M unit) (body : SplitRequest jsnum)
    (e : exn) (w : World) :
  validateSplitRequest body = Throw e →
  splitBill_with E F afterCommit body w
  = (Ok (res_status_json 400 (ErrorBody (message e))), w).
Proof.
  intros Hv. unfold splitBill_with.
  rewrite bind_run, try_catch_run, bind_run. unfold lift at 1.
  by rewrite Hv.
Qed.

(** ** Claims about the validator *)



(** C7.  The validator refuses [[40, 35, 20]], whose sum is 95, with the
    sum error, and [[50, -10, 60]], whose sum is 100, with the error for an
    entry that is not positive; in general a list with such an entry whose
    sum passes the validator's test on 100 is refused with that error. *)
Theorem percentage_rejections :
  validateSplitRequest (percentage_request [jnum 40; jnum 35; jnum 20])
  = Throw (Error msg_sum)
  ∧ validateSplitRequest (percentage_request [jnum 50; jnum (-10); jnum 60])
    = Throw (Error msg_positive)
  ∧ ∀ (ps : list jsnum) (p : jsnum),
      p ∈ ps → num_leb p (num_of_Z 0) = true →
      sum_off_target ps = false →
      validateSplitRequest (percentage_request ps)
      = Throw (Error msg_positive).
Proof.
  split_and!; [by vm_compute|by vm_compute|].
  intros ps p Hp Hle Hsum.
  rewrite (validate_percentages (percentage_request ps) ps);
    [|done|done|done|done|by intros ->; apply elem_of_nil in Hp].
  rewrite Hsum. cbn [when_throw mbind result_bind rbind].
  replace (existsb _ ps) with true; [done|].
  symmetry. apply existsb_exists. exists p.
  split; [by apply list_elem_of_In|done].
Qed.

Lemma percentage_rejections_witness :
  jnum (-10) ∈ [jnum 50; jnum (-10); jnum 60]
  ∧ num_leb (jnum (-10)) (num_of_Z 0) = true
  ∧ sum_off_target [jnum 50; jnum (-10); jnum 60] = false
  ∧ validateSplitRequest (percentage_request [jnum 50; jnum (-10); jnum 60])
    = Throw (Error msg_positive).
Proof.
  assert (jnum (-10) ∈ [jnum 50; jnum (-10); jnum 60]) as Hin
    by (apply elem_of_cons; right; apply elem_of_cons; left; reflexivity).
  split_and!; [exact Hin|reflexivity|reflexivity|].
  exact (proj2 (proj2 percentage_rejections) _ _ Hin eq_refl eq_refl).
Defined.

(** * Further properties of the controller *)

(** ** The validator, both ways *)

(** X1.  In any arithmetic, the validator accepts a request exactly when
    [tableId] and [orderId] are present and not empty and either it is a
    portion request whose [count] is not falsy, not below one and an
    integer, or it is a percentage request whose [percentages] are a
    non-empty list of numbers none of which is at most zero and whose
    sum passes the validator's test: the sum added up from the left and
    its distance from 100 are computed in that arithmetic, in the program
    that of doubles, and the distance must not exceed the double 0.01. *)
Theorem validate_accepts_exactly (N : Type) (A : Arith N)
    (body : SplitRequest N) :
  validateSplitRequest body = Ok tt ↔ valid_request body.
Proof. split; [apply validate_ok_inv|apply validate_valid]. Qed.

Lemma validate_accepts_exactly_witness :
  valid_request
    (percentage_request [jdec 1794 100; jdec 2608 100;
                         jdec 5599 100])
  ∧ ¬ valid_request
        (percentage_request [jdec 1538 100; jdec 8461 100]).
Proof.
  split.
  - apply (proj1 (validate_accepts_exactly jsnum jsnum_arith _)).
    vm_compute. reflexivity.
  - intros Hvalid.
    apply (proj2 (validate_accepts_exactly jsnum jsnum_arith _)) in Hvalid.
    vm_compute in Hvalid. discriminate Hvalid.
Defined.

(** X2.  The validator looks only at the payload field of the split type:
    what a portion request carries as [percentages], and what a percentage
    request carries as [count], does not change its verdict. *)
Theorem validate_ignores_other_payload (N : Type) (A : Arith N)
    (body : SplitRequest N) :
  (splitType body = Some "portion" →
   ∀ ps, validateSplitRequest (with_percentages body ps)
         = validateSplitRequest body)
  ∧ (splitType body = Some "percentage" →
     ∀ c, validateSplitRequest (with_count body c)
          = validateSplitRequest body).
Proof.
  split; intros Hs x; unfold validateSplitRequest, with_percentages,
    with_count; cbn [tableId orderId splitType count percentages];
    rewrite Hs.
  - by rewrite (bool_decide_false (Some "portion" = Some "percentage")).
  - by rewrite (bool_decide_false (Some "percentage" = Some "portion")).
Qed.

Lemma validate_ignores_other_payload_witness :
  validateSplitRequest
    (with_percentages sample_portion_request (Some [jnum (-5)]%list))
  = validateSplitRequest sample_portion_request.
Proof.
  apply (proj1 (validate_ignores_other_payload jsnum jsnum_arith
                  sample_portion_request)).
  reflexivity.
Defined.

(** X3.  For a percentage request the sum is checked before the entries:
    a non-empty list whose sum the validator's test finds further than
    0.01 from 100 is refused with the sum message, whether or not its
    entries are positive.  The test is made in the arithmetic of the
    program: [[15.38, 84.61, 0]], whose jdec sum is 99.99, is refused
    with the sum message, because the sum of the doubles is further than
    the double 0.01 from 100. *)
Theorem percentage_sum_checked_first (N : Type) (A : Arith N)
    (body : SplitRequest N) (ps : list N) :
  falsy_str (tableId body) = false →
  falsy_str (orderId body) = false →
  splitType body = Some "percentage" →
  percentages body = Some ps →
  ps ≠ [] →
  sum_off_target ps = true →
  validateSplitRequest body = Throw (Error msg_sum).
Proof.
  intros Ht Ho Hs Hps Hne Hsum.
  rewrite (validate_percentages body ps) by done. by rewrite Hsum.
Qed.

Lemma percentage_sum_checked_first_witness :
  validateSplitRequest
    (percentage_request [jdec 1538 100; jdec 8461 100; jnum 0])
  = Throw (Error msg_sum).
Proof.
  apply (percentage_sum_checked_first jsnum jsnum_arith
           (percentage_request
              [jdec 1538 100; jdec 8461 100; jnum 0])
           [jdec 1538 100; jdec 8461 100; jnum 0]);
    [reflexivity|reflexivity|reflexivity|reflexivity|discriminate|].
  reflexivity.
Defined.
(** ** The insert loop *)

Lemma append_ne_self (s t : string) : t ≠ EmptyString → s +:+ t ≠ s.
Proof.
  intros Ht. induction s as [|a s IH]; simpl; [done|].
  intros [= Heq]. by apply IH.
Qed.

Lemma split_order_id_ne (originalOrderId : string) (i : nat) :
  split_order_id originalOrderId i ≠ originalOrderId.
Proof. unfold split_order_id. by apply append_ne_self. Qed.

Lemma select_by_id_clones (originalOrderId : string) (i : nat)
    (splitItems : ItemMap jsnum) (rows : list OrderRow) :
  select_by_id originalOrderId
    (clone_row (split_order_id originalOrderId i) splitItems <$> rows) = [].
Proof.
  unfold select_by_id. induction rows as [|r rows IH]; [done|].
  rewrite fmap_cons, filter_cons_False; [done|].
  simpl. apply split_order_id_ne.
Qed.

Lemma select_by_id_app (originalOrderId : string) (v1 v2 : list OrderRow) :
  select_by_id originalOrderId (v1 ++ v2)
  = select_by_id originalOrderId v1 ++ select_by_id originalOrderId v2.
Proof. apply filter_app. Qed.

Lemma derived_rows_cons (O : string) (originals : list OrderRow) (i : nat)
    (s : ItemMap jsnum) (rest : list (ItemMap jsnum)) :
  derived_rows O originals i (s :: rest)
  = (clone_row (split_order_id O i) s <$> originals)
    ++ derived_rows O originals (S i) rest.
Proof.
  unfold derived_rows. rewrite imap_cons. cbn [mjoin list_join].
  rewrite Nat.add_0_r. do 2 f_equal.
  apply imap_ext. intros k x _. simpl.
  by replace (i + S k)%nat with (S (i + k))%nat by lia.
Qed.

Lemma derived_results_cons (O : string) (first : OrderRow) (i : nat)
    (s : ItemMap jsnum) (rest : list (ItemMap jsnum)) :
  derived_results O first i (s :: rest)
  = {| res_orderId := split_order_id O i; res_items := s;
       billData := clone_row (split_order_id O i) s first |}
    :: derived_results O first (S i) rest.
Proof.
  unfold derived_results. rewrite imap_cons, Nat.add_0_r. f_equal.
  apply imap_ext. intros k x _. simpl.
  by replace (i + S k)%nat with (S i + k)%nat by lia.
Qed.

Lemma insert_events_cons (O : string) (i : nat) (s : ItemMap jsnum)
    (rest : list (ItemMap jsnum)) :
  insert_events O i (s :: rest)
  = EvInsert (split_order_id O i) s O :: insert_events O (S i) rest.
Proof.
  unfold insert_events. rewrite imap_cons, Nat.add_0_r. f_equal.
  apply imap_ext. intros k x _. simpl.
  by replace (i + S k)%nat with (S i + k)%nat by lia.
Qed.

Section Loop.
Variable F : StoreFaults.
Variable O : string.

Lemma client_query_INSERT_run (i : nat) (newOrderId : string)
    (splitItems : ItemMap jsnum) (w : World) :
  client_query_INSERT F i newOrderId splitItems O w
  = match insert_fault F i with
    | Some m =>
        (Throw (StoreError m),
         {| orders := orders w; txn := txn w;
            trace := trace w ++ [EvInsert newOrderId splitItems O] |})
    | None =>
        let w1 := {| orders := orders w; txn := txn w;
                     trace := trace w
                              ++ [EvInsert newOrderId splitItems O] |} in
        let rows := clone_row newOrderId splitItems
                      <$> select_by_id O (view w1) in
        (Ok rows, write_view (view w1 ++ rows) w1)
    end.
Proof.
  unfold client_query_INSERT, emit, step, raise_if.
  cbn [mbind M_bind]. by destruct (insert_fault F i).
Qed.

Lemma insert_split_orders_ok (splits : list (ItemMap jsnum)) :
  ∀ (i : nat) (results : list SplitResult) (w : World)
    (v : list OrderRow) (first : OrderRow) (others : list OrderRow),
    txn w = Some v →
    select_by_id O v = first :: others →
    (∀ k, (k < length splits)%nat → insert_fault F (i + k) = None) →
    insert_split_orders F O i splits results w
    = (Ok (results ++ derived_results O first i splits),
       {| orders := orders w;
          txn := Some (v ++ derived_rows O (first :: others) i splits);
          trace := trace w ++ insert_events O i splits |}).
Proof.
  induction splits as [|s rest IH]; intros i results w v first others
    Htxn Hsel Hfaults.
  - cbn. rewrite !(right_id_L [] (++)). destruct w; simpl in *.
    by rewrite Htxn.
  - cbn [insert_split_orders]. rewrite bind_run.
    rewrite client_query_INSERT_run.
    rewrite <-(Nat.add_0_r i) at 1. rewrite Hfaults by (simpl; lia).
    cbn zeta. unfold view, write_view. cbn [orders txn trace].
    rewrite Htxn. cbn [from_option]. rewrite Hsel.
    cbn [fmap list_fmap head].
    erewrite IH; [| reflexivity | |].
    + rewrite derived_results_cons, derived_rows_cons, insert_events_cons.
      cbn [orders txn trace fmap list_fmap].
      by rewrite <-!(assoc_L (++)).
    + rewrite select_by_id_app, Hsel.
      rewrite <-(fmap_cons (clone_row (split_order_id O i) s)).
      by rewrite select_by_id_clones, (right_id_L [] (++)).
    + intros k Hk. replace (S i + k)%nat with (i + S k)%nat by lia.
      apply Hfaults. simpl. lia.
Qed.

(** Whatever becomes of the loop inside a transaction, the committed
    rows stay as they were, the transaction stays open, and nothing but
    inserts is sent. *)
Lemma insert_split_orders_inv (splits : list (ItemMap jsnum)) :
  ∀ (i : nat) (results : list SplitResult) (w : World)
    (r : result (list SplitResult)) (w' : World),
    is_Some (txn w) →
    insert_split_orders F O i splits results w = (r, w') →
    orders w' = orders w
    ∧ is_Some (txn w')
    ∧ ∃ evs, trace w' = trace w ++ evs
             ∧ Forall (λ ev, is_insert ev = true) evs.
Proof.
  induction splits as [|s rest IH]; intros i results w r w' [v Htxn].
  - cbn. intros [= <- <-]. split_and!; [done|by exists v|].
    exists []. by rewrite (right_id_L [] (++)).
  - cbn [insert_split_orders]. rewrite bind_run.
    rewrite client_query_INSERT_run.
    destruct (insert_fault F i) as [m|].
    { intros [= <- <-]. cbn. split_and!; [done|by exists v|].
      eexists. split; [done|]. by repeat constructor. }
    cbn zeta. unfold view, write_view. cbn [orders txn trace].
    rewrite Htxn. cbn [from_option].
    destruct (head _) as [newOrder|].
    + intros Hrun. apply IH in Hrun as (Ho & Ht & evs & Htr & Hevs);
        [|by eexists].
      cbn [orders txn trace] in *. split_and!; [done|done|].
      exists (EvInsert (split_order_id O i) s O :: evs).
      rewrite Htr, <-(assoc_L (++)). split; [done|].
      by constructor.
    + intros [= <- <-]. cbn. split_and!; [done|by eexists|].
      eexists. split; [done|]. by repeat constructor.
Qed.

Lemma insert_split_orders_fail (splits : list (ItemMap jsnum)) :
  ∀ (i : nat) (results : list SplitResult) (w : World)
    (v : list OrderRow),
    txn w = Some v →
    (∃ k, (k < length splits)%nat ∧ insert_fault F (i + k) ≠ None)
    ∨ (splits ≠ [] ∧ select_by_id O v = []) →
    ∃ e w', insert_split_orders F O i splits results w = (Throw e, w').
Proof.
  induction splits as [|s rest IH]; intros i results w v Htxn Hfail.
  - destruct Hfail as [(k & Hk & _)|[? _]]; [simpl in Hk; lia|done].
  - cbn [insert_split_orders]. rewrite bind_run.
    rewrite client_query_INSERT_run.
    destruct (insert_fault F i) as [m|] eqn:Hi; [by eauto|].
    cbn zeta. unfold view, write_view. cbn [orders txn trace].
    rewrite Htxn. cbn [from_option].
    destruct (select_by_id O v) as [|first others] eqn:Hsel.
    { cbn. eauto. }
    cbn [fmap list_fmap head].
    destruct Hfail as [(k & Hk & Hfault)|[_ ?]]; [|done].
    destruct k as [|k]; [by rewrite Nat.add_0_r in Hfault|].
    eapply IH; [done|]. left. exists k. split; [simpl in Hk; lia|].
    by replace (S i + k)%nat with (i + S k)%nat by lia.
Qed.
End Loop.

(** ** Runs of the statements *)

Lemma pool_connect_run (F : StoreFaults) (w : World) :
  pool_connect F w
  = (match connect_fault F with
     | Some m => Throw (StoreError m)
     | None => Ok tt
     end,
     {| orders := orders w; txn := txn w; trace := trace w ++ [EvConnect] |}).
Proof. unfold pool_connect. destruct (connect_fault F); reflexivity. Qed.

Lemma client_query_BEGIN_run (F : StoreFaults) (w : World) :
  client_query_BEGIN F w
  = match begin_fault F with
    | Some m =>
        (Throw (StoreError m),
         {| orders := orders w; txn := txn w;
            trace := trace w ++ [EvBegin] |})
    | None =>
        (Ok tt,
         {| orders := orders w;
            txn := Some (from_option (λ v, v) (orders w) (txn w));
            trace := trace w ++ [EvBegin] |})
    end.
Proof.
  unfold client_query_BEGIN.
  destruct w as [db [v|] t]; destruct (begin_fault F); reflexivity.
Qed.

Lemma client_query_COMMIT_run (F : StoreFaults) (w : World) :
  client_query_COMMIT F w
  = match commit_fault F with
    | Some m =>
        (Throw (StoreError m),
         {| orders := orders w; txn := txn w;
            trace := trace w ++ [EvCommit] |})
    | None =>
        (Ok tt,
         {| orders := from_option (λ v, v) (orders w) (txn w);
            txn := None;
            trace := trace w ++ [EvCommit] |})
    end.
Proof.
  unfold client_query_COMMIT.
  destruct w as [db [v|] t]; destruct (commit_fault F); reflexivity.
Qed.

Lemma client_query_ROLLBACK_run (F : StoreFaults) (w : World) :
  client_query_ROLLBACK F w
  = match rollback_fault F with
    | Some m =>
        (Throw (StoreError m),
         {| orders := orders w; txn := txn w;
            trace := trace w ++ [EvRollback] |})
    | None =>
        (Ok tt,
         {| orders := orders w; txn := None;
            trace := trace w ++ [EvRollback] |})
    end.
Proof.
  unfold client_query_ROLLBACK. destruct (rollback_fault F); reflexivity.
Qed.

(** The [catch] block of [createSplitOrders] and the [finally] after it,
    from a world [w]: the error goes on, the committed rows stay, ROLLBACK
    and the release are the only things sent. *)
Lemma rollback_and_release (F : StoreFaults) (e : exn) (w : World) :
  ∃ e' w',
    try_finally (A:=list SplitResult)
      (client_query_ROLLBACK F ;; throw e) client_release w
    = (Throw e', w')
    ∧ orders w' = orders w
    ∧ trace w' = trace w ++ [EvRollback; EvRelease]
    ∧ (rollback_fault F = None → txn w' = None ∧ e' = e).
Proof.
  rewrite try_finally_run, bind_run, client_query_ROLLBACK_run.
  destruct (rollback_fault F) as [m|]; cbn.
  - do 2 eexists. split_and!; [done|done| |done].
    by rewrite <-(assoc_L (++)).
  - do 2 eexists. split_and!; [done|done| |done].
    by rewrite <-(assoc_L (++)).
Qed.

Lemma try_blocks_ext {A} (m m' : M A) (h : exn → M A) (f : M unit)
    (w w' : World) :
  m w = m' w' →
  try_finally (try_catch m h) f w = try_finally (try_catch m' h) f w'.
Proof. intros H. by rewrite !try_finally_run, !try_catch_run, H. Qed.

Lemma try_blocks_throw {A} (m : M A) (h : exn → M A) (f : M unit)
    (w w' : World) (e : exn) :
  m w = (Throw e, w') →
  try_finally (try_catch m h) f w = try_finally (h e) f w'.
Proof. intros H. by rewrite !try_finally_run, !try_catch_run, H. Qed.

(** ** createSplitOrders, whatever follows COMMIT *)

Section Transaction.
Variable F : StoreFaults.
Variable afterCommit : OrderRow → M unit.

(** When every statement of the transaction goes through, the operation
    is what remains of it after COMMIT, run in the committed world. *)
Lemma createSplitOrders_with_committed (originalOrder : OrderRow)
    (splits : list (ItemMap jsnum)) (tableId O : string) (db : list OrderRow)
    (t : list event) :
  transaction_commits F O db splits →
  createSplitOrders_with F afterCommit originalOrder splits tableId O
    {| orders := db; txn := None; trace := t |}
  = try_finally
      (try_catch
         (afterCommit originalOrder ;;
          mret (expected_results O db splits))
         (λ error, client_query_ROLLBACK F ;; throw error))
      client_release
      (committed_world db t O splits).
Proof.
  intros (Hconn & Hbegin & Hins & Hsel & Hcommit).
  unfold createSplitOrders_with. rewrite bind_run, pool_connect_run, Hconn.
  apply try_blocks_ext.
  rewrite bind_run, client_query_BEGIN_run, Hbegin. cbn [orders txn trace].
  rewrite bind_run. unfold expected_results, committed_world.
  destruct (select_by_id O db) as [|first others] eqn:Hdb.
  - destruct Hsel as [->|?]; [|done]. cbn [insert_split_orders].
    unfold mret at 1, M_ret at 1.
    rewrite bind_run, client_query_COMMIT_run, Hcommit.
    cbn [orders txn trace from_option head].
    unfold derived_rows, insert_events. cbn [imap mjoin list_join app].
    by rewrite <-!(assoc_L (++)), (right_id_L [] (++)).
  - rewrite (insert_split_orders_ok F O splits 0 [] _ db first others);
      [|done|done|done].
    rewrite bind_run, client_query_COMMIT_run, Hcommit.
    cbn [orders txn trace from_option head].
    by rewrite <-!(assoc_L (++)).
Qed.

(** When a statement of the transaction fails, the operation fails, the
    committed rows are those it started with, and nothing was sent but
    statements of the transaction; once connected, ROLLBACK was sent,
    and the transaction is closed unless ROLLBACK itself failed. *)
Lemma createSplitOrders_with_not_committed (originalOrder : OrderRow)
    (splits : list (ItemMap jsnum)) (tableId O : string) (db : list OrderRow)
    (t : list event) :
  transaction_fails F O db splits →
  ∃ e w',
    createSplitOrders_with F afterCommit originalOrder splits tableId O
      {| orders := db; txn := None; trace := t |}
    = (Throw e, w')
    ∧ orders w' = db
    ∧ (∃ evs, trace w' = t ++ evs
              ∧ Forall (λ ev, is_complete ev = false) evs)
    ∧ (connect_fault F = None →
       EvRollback ∈ trace w'
       ∧ (rollback_fault F = None → txn w' = None)).
Proof.
  intros Hfail.
  unfold createSplitOrders_with. rewrite bind_run, pool_connect_run.
  destruct (connect_fault F) as [m|] eqn:Hconn.
  { do 2 eexists. split_and!; [done|done| |done].
    eexists. split; [done|]. by repeat constructor. }
  set (w1 := {| orders := db; txn := None; trace := t ++ [EvConnect] |}).
  set (body := (client_query_BEGIN F ;; _)).
  assert (∃ e w2, body w1 = (Throw e, w2) ∧ orders w2 = db
            ∧ ∃ evs, trace w2 = t ++ evs
                     ∧ Forall (λ ev, is_complete ev = false) evs)
    as (e & w2 & Hbody & Horders & evs & Htrace & Hevs).
  { subst body. rewrite bind_run, client_query_BEGIN_run.
    destruct (begin_fault F) as [m|] eqn:Hbegin.
    { do 2 eexists. split_and!; [done|done|].
      exists [EvConnect; EvBegin]. subst w1. cbn [trace].
      rewrite <-(assoc_L (++)). split; [done|]. by repeat constructor. }
    subst w1. cbn [orders txn trace from_option]. rewrite bind_run.
    destruct (insert_split_orders F O 0 splits [] _) as [r w2] eqn:Hloop.
    pose proof Hloop as Hinv.
    apply insert_split_orders_inv in Hinv
      as (Ho & [v Hv] & ievs & Htr & Hievs); [|by eexists].
    cbn [orders txn trace] in Ho, Htr.
    assert (Forall (λ ev, is_complete ev = false) ievs) as Hievs'.
    { eapply Forall_impl; [exact Hievs|]. by intros []. }
    destruct r as [results|e].
    - rewrite bind_run, client_query_COMMIT_run.
      destruct (commit_fault F) as [m|] eqn:Hcommit.
      + do 2 eexists. split_and!; [done|done|].
        exists ([EvConnect; EvBegin] ++ ievs ++ [EvCommit]).
        cbn [trace]. rewrite Htr, <-!(assoc_L (++)). split; [done|].
        repeat (apply Forall_app; split); by repeat constructor.
      + destruct Hfail as [?|[?|[Hif|?]]]; [done|done| |done].
        destruct (insert_split_orders_fail F O splits 0 []
                    {| orders := db; txn := Some db;
                       trace := (t ++ [EvConnect]) ++ [EvBegin] |}
                    db eq_refl)
          as (e & w3 & Hthrow); [|congruence].
        destruct Hif as [(k & Hk & Hf)|Hif]; [left|by right].
        by exists k.
    - do 2 eexists. split_and!; [done|done|].
      exists ([EvConnect; EvBegin] ++ ievs).
      rewrite Htr, <-!(assoc_L (++)). split; [done|].
      repeat (apply Forall_app; split); by repeat constructor. }
  rewrite (try_blocks_throw _ _ _ _ _ _ Hbody).
  destruct (rollback_and_release F e w2)
    as (e' & w' & -> & Ho' & Htr' & Hrb).
  exists e', w'. split_and!; [done|congruence| |].
  - exists (evs ++ [EvRollback; EvRelease]).
    rewrite Htr', Htrace, <-(assoc_L (++)). split; [done|].
    apply Forall_app; split; by repeat constructor.
  - intros _. split; [|by intros [? _]%Hrb].
    rewrite Htr'. apply elem_of_app. right. apply elem_of_cons. by left.
Qed.
End Transaction.

Lemma forall_below_dec (f : nat → option string) (n : nat) :
  (∀ k, (k < n)%nat → f k = None) ∨ (∃ k, (k < n)%nat ∧ f k ≠ None).
Proof.
  induction n as [|n [IH|(k & Hk & Hf)]].
  - left. intros k Hk. lia.
  - destruct (f n) as [m|] eqn:Hn.
    + right. exists n. split; [lia|congruence].
    + left. intros k Hk. destruct (decide (k = n)) as [->|]; [done|].
      apply IH. lia.
  - right. exists k. split; [lia|done].
Qed.

Lemma commits_or_fails (F : StoreFaults) (O : string) (db : list OrderRow)
    (splits : list (ItemMap jsnum)) :
  transaction_commits F O db splits ∨ transaction_fails F O db splits.
Proof.
  unfold transaction_commits, transaction_fails, inserts_fail.
  destruct (connect_fault F); [right; by left|].
  destruct (begin_fault F); [right; right; by left|].
  destruct (commit_fault F); [right; by do 3 right|].
  destruct (forall_below_dec (insert_fault F) (length splits)) as [Hall|Hex];
    [|right; do 2 right; left; by left].
  destruct splits as [|s rest]; [left; split_and!; by auto|].
  destruct (select_by_id O db) eqn:Hsel.
  - right. do 2 right. left. by right.
  - left. split_and!; by auto.
Qed.

(** ** What each copy does after COMMIT *)

Lemma Util_afterCommit_run
    (completeOrder : string → string → jsnum → string → list OrderRow
                     → result bool * list OrderRow)
    (o : OrderRow) (w : World) :
  Util.afterCommit completeOrder o w
  = (match (completeOrder (restaurant_id o) (table_id o) (jnum 0) "split"
                          (orders w)).1 with
     | Ok _ => Ok tt
     | Throw e => Throw e
     end,
     {| orders := (completeOrder (restaurant_id o) (table_id o) (jnum 0) "split"
                                 (orders w)).2;
        txn := txn w;
        trace := trace w
                 ++ [EvComplete (restaurant_id o) (table_id o) (jnum 0)
                                "split"] |}).
Proof.
  unfold Util.afterCommit. rewrite bind_run. unfold Util.call_completeOrder.
  cbn [orders txn trace].
  destruct (completeOrder _ _ _ _ _) as [[[]|e] db']; reflexivity.
Qed.

Lemma check_orders_swallowed (F : StoreFaults) (a b : string) (w : World) :
  try_catch (pool_query_check_orders F a b) (λ error, mret tt) w
  = (Ok tt, {| orders := orders w; txn := txn w;
               trace := trace w ++ [EvCheckOrders a b] |}).
Proof.
  unfold pool_query_check_orders.
  destruct (check_orders_fault F); reflexivity.
Qed.

Lemma check_completed_swallowed (F : StoreFaults) (a b : string)
    (w : World) :
  try_catch (pool_query_check_completed F a b) (λ error, mret tt) w
  = (Ok tt, {| orders := orders w; txn := txn w;
               trace := trace w ++ [EvCheckCompleted a b] |}).
Proof.
  unfold pool_query_check_completed.
  destruct (check_completed_fault F); reflexivity.
Qed.

Lemma Ctrl_afterCommit_run (F : StoreFaults)
    (completeOrderController :
       Ctrl.MockReq → list OrderRow → result (option nat) * list OrderRow)
    (o : OrderRow) (w : World) :
  Ctrl.afterCommit F completeOrderController o w
  = (Ok tt,
     {| orders :=
          (completeOrderController
             (Ctrl.mkMockReq (restaurant_id o) (table_id o) (jnum 0) "split")
             (orders w)).2;
        txn := txn w;
        trace := trace w
                 ++ [EvComplete (restaurant_id o) (table_id o) (jnum 0) "split";
                     EvCheckOrders (restaurant_id o) (table_id o);
                     EvCheckCompleted (restaurant_id o) (table_id o)] |}).
Proof.
  unfold Ctrl.afterCommit. cbn zeta.
  rewrite bind_run, try_catch_run, bind_run.
  unfold Ctrl.call_completeOrderController. cbn [orders txn trace].
  cbn [Ctrl.params_restaurantId Ctrl.params_tableId Ctrl.body_total
       Ctrl.body_paymentMethod].
  destruct (completeOrderController _ _) as [[responded|e] db'].
  - cbn [fst snd].
    assert (∀ (b : bool) (w1 : World),
              (if b then mret tt else mret tt : M unit) w1 = (Ok tt, w1))
      as -> by (by intros []).
    rewrite bind_run, check_orders_swallowed, check_completed_swallowed.
    cbn [orders txn trace]. by rewrite <-!(assoc_L (++)).
  - cbn [fst snd]. unfold mret at 1, M_ret at 1.
    rewrite bind_run, check_orders_swallowed, check_completed_swallowed.
    cbn [orders txn trace]. by rewrite <-!(assoc_L (++)).
Qed.

Lemma Util_createSplitOrders_committed (F : StoreFaults)
    (completeOrder : string → string → jsnum → string → list OrderRow
                     → result bool * list OrderRow)
    (o : OrderRow) (splits : list (ItemMap jsnum)) (tableId O : string)
    (db : list OrderRow) (t : list event) :
  transaction_commits F O db splits →
  let w_c := committed_world db t O splits in
  let done := completeOrder (restaurant_id o) (table_id o) (jnum 0) "split"
                            (orders w_c) in
  let called := trace w_c
                ++ [EvComplete (restaurant_id o) (table_id o) (jnum 0)
                               "split"] in
  Util.createSplitOrders F completeOrder o splits tableId O
    {| orders := db; txn := None; trace := t |}
  = match done.1 with
    | Ok _ =>
        (Ok (expected_results O db splits),
         {| orders := done.2; txn := None;
            trace := called ++ [EvRelease] |})
    | Throw e =>
        (Throw (match rollback_fault F with
                | Some m => StoreError m
                | None => e
                end),
         {| orders := done.2; txn := None;
            trace := called ++ [EvRollback; EvRelease] |})
    end.
Proof.
  intros Hc w_c done called. unfold Util.createSplitOrders.
  rewrite (createSplitOrders_with_committed _ _ _ _ _ _ _ _ Hc).
  fold w_c. rewrite try_finally_run, try_catch_run, bind_run.
  rewrite Util_afterCommit_run. fold done. fold called.
  destruct (done.1) as [b|e].
  - reflexivity.
  - rewrite bind_run, client_query_ROLLBACK_run.
    destruct (rollback_fault F); cbn; by rewrite <-(assoc_L (++)).
Qed.

Lemma Ctrl_createSplitOrders_committed (F : StoreFaults)
    (completeOrderController :
       Ctrl.MockReq → list OrderRow → result (option nat) * list OrderRow)
    (o : OrderRow) (splits : list (ItemMap jsnum)) (tableId O : string)
    (db : list OrderRow) (t : list event) :
  transaction_commits F O db splits →
  let w_c := committed_world db t O splits in
  Ctrl.createSplitOrders F completeOrderController o splits tableId O
    {| orders := db; txn := None; trace := t |}
  = (Ok (expected_results O db splits),
     {| orders :=
          (completeOrderController
             (Ctrl.mkMockReq (restaurant_id o) (table_id o) (jnum 0) "split")
             (orders w_c)).2;
        txn := None;
        trace := trace w_c
                 ++ [EvComplete (restaurant_id o) (table_id o) (jnum 0) "split";
                     EvCheckOrders (restaurant_id o) (table_id o);
                     EvCheckCompleted (restaurant_id o) (table_id o);
                     EvRelease] |}).
Proof.
  intros Hc w_c. unfold Ctrl.createSplitOrders.
  rewrite (createSplitOrders_with_committed _ _ _ _ _ _ _ _ Hc).
  fold w_c. rewrite try_finally_run, try_catch_run, bind_run.
  rewrite Ctrl_afterCommit_run. cbn. by rewrite <-(assoc_L (++)).
Qed.
(** ** Claims about persistence *)

Lemma derived_rows_elem (O : string) (originals : list OrderRow)
    (splits : list (ItemMap jsnum)) (i : nat) (s : ItemMap jsnum)
    (original : OrderRow) :
  splits !! i = Some s →
  original ∈ originals →
  clone_row (split_order_id O i) s original
  ∈ derived_rows O originals 0 splits.
Proof.
  intros Hs Ho. unfold derived_rows. apply list_elem_of_join.
  exists (clone_row (split_order_id O i) s <$> originals).
  split; [by apply list_elem_of_fmap_2|].
  apply list_elem_of_lookup. exists i.
  by rewrite list_lookup_imap, Hs.
Qed.








(** ** Claims about the derived ids and the results *)

Lemma JSON_items_exact (items : ItemMap jsnum) :
  JSON_exact_items items → JSON_items items = items.
Proof.
  intros Hexact. unfold JSON_items.
  rewrite <-(map_fmap_id items) at 2. apply map_fmap_ext.
  intros itemId [cs rest] Hline. unfold JSON_line. cbn. f_equal.
  rewrite <-(list_fmap_id cs) at 2. apply list_fmap_ext.
  intros k [q p op cr] Hc.
  destruct (Hexact itemId _ (mkCustomization q p op cr) Hline)
    as (Hq & Hp & Hop); [by eapply list_elem_of_lookup_2|].
  unfold JSON_customization, JSON_exact in *. cbn in *.
  rewrite Hq, Hp. f_equal.
  destruct op as [x|]; [|done]. cbn. f_equal. by apply Hop.
Qed.

Lemma mjoin_imap_singleton {A B} (f : nat → A → B) (l : list A) :
  mjoin (imap (λ i x, [f i x]%list) l) = imap f l.
Proof.
  revert f. induction l as [|x l IH]; intros f; [done|].
  rewrite !imap_cons. cbn [mjoin list_join app]. f_equal. apply IH.
Qed.

Lemma imap_ids (O : string) (first : OrderRow)
    (splits : list (ItemMap jsnum)) :
  row_id <$> imap (λ i s, clone_row (split_order_id O i) s first) splits
  = split_order_id O <$> seq 0 (length splits).
Proof.
  apply list_eq. intros k.
  rewrite !list_lookup_fmap, list_lookup_imap.
  destruct (splits !! k) as [s|] eqn:Hk; simpl.
  - apply lookup_lt_Some in Hk as Hlt.
    by rewrite (lookup_seq_lt _ _ _ Hlt).
  - apply lookup_ge_None in Hk. by rewrite lookup_seq_ge.
Qed.

(** ** Claims about the derived ids and the results *)

Lemma expected_results_lookup (F : StoreFaults) (O : string)
    (db : list OrderRow) (splits : list (ItemMap jsnum)) :
  transaction_commits F O db splits →
  length (expected_results O db splits) = length splits
  ∧ ∀ i s, splits !! i = Some s →
      ∃ res, expected_results O db splits !! i = Some res
        ∧ res_orderId res = O +:+ "-split-" +:+ pretty (i + 1)%nat
        ∧ res_items res = s
        ∧ row_id (billData res) = O +:+ "-split-" +:+ pretty (i + 1)%nat
        ∧ json_data (billData res) = Some (JSON_items s).
Proof.
  intros (_ & _ & _ & Hsel & _). unfold expected_results.
  destruct (select_by_id O db) as [|first others].
  - destruct Hsel as [->|?]; [|done]. split; [done|]. intros i s Hs.
    by rewrite lookup_nil in Hs.
  - cbn [head]. unfold derived_results. split; [by rewrite length_imap|].
    intros i s Hs. eexists. rewrite list_lookup_imap, Hs. by cbn.
Qed.

(** C5.  When the transaction of a split of order [O] into N shares goes
    through, the inserts sent are, in the order of the shares, one per
    share [i] with id [O-split-(i+1)] and that share as payload; the rows
    committed, which the completion collaborator is handed and of which
    the operation keeps what it leaves, are the rows there were followed,
    share by share in that order, by a copy of the original row under the
    id [O-split-(i+1)] with the share, as JSON carries it, as its items,
    which is the share itself when all its numbers are finite and none
    is a negative zero;
    and the result list names the same ids and shares in the same order,
    each with the row inserted under that id.  The shares of a
    percentage split are in the order of the percentages; those of a
    portion split are all the same. *)
Theorem split_order_ids (F : StoreFaults)
    (completeOrder : string → string → jsnum → string → list OrderRow
                     → result bool * list OrderRow)
    (completeOrderController :
       Ctrl.MockReq → list OrderRow → result (option nat) * list OrderRow)
    (originalOrder : OrderRow) (splits : list (ItemMap jsnum))
    (tableId O : string) (db : list OrderRow) (t : list event) :
  transaction_commits F O db splits →
  let w0 := {| orders := db; txn := None; trace := t |} in
  let newOrderId (i : nat) := O +:+ "-split-" +:+ pretty (i + 1)%nat in
  let stored :=
    db ++ mjoin (imap (λ i s, clone_row (newOrderId i) s
                                <$> select_by_id O db) splits) in
  let sent (w' : World) : Prop :=
    ∃ post,
      trace w' = t ++ [EvConnect; EvBegin]
                   ++ imap (λ i s, EvInsert (newOrderId i) s O) splits
                   ++ [EvCommit] ++ post
      ∧ Forall (λ ev, is_insert ev = false) post in
  let returned (results : list SplitResult) : Prop :=
    length results = length splits
    ∧ ∀ i s, splits !! i = Some s →
        ∃ res, results !! i = Some res
          ∧ res_orderId res = newOrderId i
          ∧ res_items res = s
          ∧ row_id (billData res) = newOrderId i
          ∧ json_data (billData res) = Some (JSON_items s) in
  (∃ r w',
     Util.createSplitOrders F completeOrder originalOrder splits tableId O w0
     = (r, w')
     ∧ sent w'
     ∧ orders w'
       = (completeOrder (restaurant_id originalOrder)
            (table_id originalOrder) (jnum 0) "split" stored).2
     ∧ ∀ results, r = Ok results → returned results)
  ∧ (∃ results w',
       Ctrl.createSplitOrders F completeOrderController originalOrder splits
                              tableId O w0
       = (Ok results, w')
       ∧ sent w'
       ∧ orders w'
         = (completeOrderController
              (Ctrl.mkMockReq (restaurant_id originalOrder)
                 (table_id originalOrder) (jnum 0) "split") stored).2
       ∧ returned results)
  ∧ (∀ i s original,
       splits !! i = Some s →
       original ∈ select_by_id O db →
       ∃ row, row ∈ stored
              ∧ row_id row = newOrderId i
              ∧ json_data row = Some (JSON_items s)
              ∧ (JSON_exact_items s → json_data row = Some s)
              ∧ restaurant_id row = restaurant_id original
              ∧ table_id row = table_id original
              ∧ row_rest row = row_rest original)
  ∧ (∀ first,
       select_by_id O db = [first]%list →
       stored = db ++ imap (λ i s, clone_row (newOrderId i) s first) splits
       ∧ row_id <$> stored
         = (row_id <$> db) ++ (newOrderId <$> seq 0 (length splits)))
  ∧ (∀ (items : ItemMap jsnum) percentages i p,
       percentages !! i = Some p →
       calculatePercentageSplit items percentages !! i
       = Some (share_of (λ q, num_div (num_mul q p) (num_of_Z 100)) items))
  ∧ (∀ E (items : ItemMap jsnum) count shares i share,
       calculatePortionSplit E items count = Returns shares →
       shares !! i = Some share →
       share = share_of (λ q, num_div q count) items).
Proof.
  intros Hc w0 newOrderId stored sent returned.
  pose proof (expected_results_lookup F O db splits Hc) as Hres.
  assert (stored = db ++ derived_rows O (select_by_id O db) 0 splits)
    as Hstored by reflexivity.
  split_and!.
  - subst w0. rewrite (Util_createSplitOrders_committed _ _ _ _ _ _ _ _ Hc).
    cbn zeta. cbn [committed_world orders trace]. rewrite <-Hstored.
    destruct (completeOrder _ _ _ _ _).1.
    + do 2 eexists. split; [done|]. split_and!; [|done|].
      * eexists. rewrite <-!(assoc_L (++)). split; [done|].
        by repeat constructor.
      * by intros results [= <-].
    + do 2 eexists. split; [done|]. split_and!; [|done|done].
      eexists. rewrite <-!(assoc_L (++)). split; [done|].
      by repeat constructor.
  - subst w0. rewrite (Ctrl_createSplitOrders_committed _ _ _ _ _ _ _ _ Hc).
    cbn zeta. cbn [committed_world orders trace]. rewrite <-Hstored.
    do 2 eexists. split; [done|]. split_and!; [|done|done].
    eexists. rewrite <-!(assoc_L (++)). split; [done|].
    by repeat constructor.
  - intros i s original Hs Ho.
    exists (clone_row (newOrderId i) s original).
    split_and!; [|done|done| |done|done|done].
    + rewrite Hstored. apply elem_of_app. right.
      by apply (derived_rows_elem O _ splits i s original).
    + intros Hexact. cbn. by rewrite JSON_items_exact.
  - intros first Hfirst. subst stored. rewrite Hfirst.
    rewrite (mjoin_imap_singleton
               (λ i s, clone_row (newOrderId i) s first)).
    split; [done|]. rewrite fmap_app. f_equal. apply imap_ids.
  - intros items ps i p Hp.
    by rewrite calculatePercentageSplit_share_of, list_lookup_fmap, Hp.
  - intros E items count shares i share
      (n & _ & _ & _ & ->)%calculatePortionSplit_Returns_inv.
    by intros [-> _]%lookup_replicate.
Qed.

Lemma split_order_ids_witness :
  ∃ results w',
    Ctrl.createSplitOrders no_faults controller_ok sample_order
      [sample_items; sample_items] "table-1" "order-123"
      (init_world [sample_order])
    = (Ok results, w')
    ∧ res_orderId <$> results = ["order-123-split-1"; "order-123-split-2"]
    ∧ row_id <$> orders w'
      = ["order-123"; "order-123-split-1"; "order-123-split-2"].
Proof.
  destruct (split_order_ids no_faults completeOrder_ok controller_ok
              sample_order [sample_items; sample_items] "table-1"
              "order-123" [sample_order] [])
    as (_ & (results & w' & Hrun & _ & Horders & Hlen & Hres) & _ & Hrows
        & _).
  { split_and!; [done|done|done| |done]. right.
    intros H. vm_compute in H. discriminate. }
  exists results, w'. split; [exact Hrun|]. split.
  - destruct results as [|r1 [|r2 [|r3 results]]]; try discriminate Hlen.
    destruct (Hres 0%nat sample_items eq_refl) as (x1 & Hx1 & Hid1 & _).
    destruct (Hres 1%nat sample_items eq_refl) as (x2 & Hx2 & Hid2 & _).
    injection Hx1 as <-. injection Hx2 as <-.
    cbn [fmap list_fmap]. rewrite Hid1, Hid2. vm_compute. reflexivity.
  - rewrite Horders. cbn [controller_ok snd].
    destruct (Hrows sample_order) as [_ Hids];
      [vm_compute; reflexivity|].
    rewrite Hids. vm_compute. reflexivity.
Defined.

(** ** Claims about the workflow's answers *)

(** C2, on the first copy.  The transaction commits both derived orders,
    the [completeOrder] utility then throws, and the first copy of
    [createSplitOrders] sends ROLLBACK and throws in turn: the caller gets
    400 with the collaborator's message although both derived orders are
    stored.  The second copy, in the same situation, answers 200 with both
    results. *)
Theorem completion_throw_escalates :
  let run1 := Util.splitBill sample_engine no_faults completeOrder_throws
                sample_portion_request (init_world [sample_order]) in
  let run2 := Ctrl.splitBill sample_engine no_faults controller_throws
                sample_portion_request (init_world [sample_order]) in
  validateSplitRequest sample_portion_request = Ok tt
  ∧ run1.1 = Ok (res_status_json 400 (ErrorBody "completion failed"))
  ∧ row_id <$> orders run1.2
    = ["order-123"; "order-123-split-1"; "order-123-split-2"]
  ∧ event_name <$> trace run1.2
    = ["SELECT order"; "connect"; "BEGIN"; "INSERT"; "INSERT"; "COMMIT";
       "complete order"; "ROLLBACK"; "release"]
  ∧ (match run2.1 with
     | Ok resp => Some (status resp)
     | Throw _ => None
     end) = Some 200%nat
  ∧ (match run2.1 with
     | Ok {| body := SuccessBody _ results |} => res_orderId <$> results
     | _ => []
     end) = ["order-123-split-1"; "order-123-split-2"]
  ∧ row_id <$> orders run2.2
    = ["order-123"; "order-123-split-1"; "order-123-split-2"].
Proof. vm_compute. by split_and!. Qed.

(** ** The workflow as an equation *)

Lemma pool_query_order_run (F : StoreFaults) (o t : string) (w : World) :
  pool_query_order F o t w
  = (match fetch_fault F with
     | Some m => Throw (StoreError m)
     | None => Ok (filter (λ r, row_id r = o ∧ table_id r = t) (orders w))
     end,
     {| orders := orders w; txn := txn w;
        trace := trace w ++ [EvFetch o t] |}).
Proof. unfold pool_query_order. destruct (fetch_fault F); reflexivity. Qed.

(** Choosing the calculator and running it changes nothing outside. *)
Lemma request_splits_run (E : Engine) (st : string)
    (req_body : SplitRequest jsnum) (items : ItemMap jsnum) (w : World) :
  (if bool_decide (st = "portion") then
     count ← field (count req_body) "count" ;
     mret (calculatePortionSplit E items count)
   else if bool_decide (st = "percentage") then
     percentages ← field (percentages req_body) "percentages" ;
     mret (Returns (calculatePercentageSplit items percentages))
   else throw (TypeError "splits is undefined")) w
  = (request_splits E st req_body items, w).
Proof.
  unfold request_splits.
  destruct (bool_decide (st = "portion")).
  - by destruct (count req_body).
  - destruct (bool_decide (st = "percentage")); [|done].
    by destruct (percentages req_body).
Qed.

Lemma request_splits_valid (E : Engine) (st : string)
    (req_body : SplitRequest jsnum) (items : ItemMap jsnum) :
  validateSplitRequest req_body = Ok tt →
  splitType req_body = Some st →
  (st = "portion"
   ∧ ∃ c, count req_body = Some c
          ∧ request_splits E st req_body items
            = Ok (calculatePortionSplit E items c))
  ∨ (st = "percentage"
     ∧ ∃ ps, percentages req_body = Some ps
             ∧ request_splits E st req_body items
               = Ok (Returns (calculatePercentageSplit items ps))).
Proof.
  intros (_ & _ & Hvalid)%validate_ok_inv Hst. unfold request_splits.
  destruct Hvalid as [[Hs (c & Hc & _)]|[Hs (ps & Hps & _)]];
    rewrite Hs in Hst; injection Hst as <-; [left|right];
    (split; [done|]).
  - exists c. by rewrite Hc.
  - exists ps. by rewrite Hps.
Qed.

Lemma request_shares_splits (E : Engine) (st : string)
    (req_body : SplitRequest jsnum) (items : ItemMap jsnum)
    (shares : list (ItemMap jsnum)) :
  splitType req_body = Some st →
  request_shares E req_body items shares →
  request_splits E st req_body items = Ok (Returns shares).
Proof.
  intros Hst [[Hs (c & Hc & Hcalc)]|[Hs (ps & Hps & ->)]];
    rewrite Hs in Hst; injection Hst as <-; unfold request_splits.
  - by rewrite Hc, Hcalc.
  - by rewrite Hps.
Qed.

(** A run of the workflow on a request the validator accepts. *)
Lemma splitBill_with_valid_run (E : Engine) (F : StoreFaults)
    (afterCommit : OrderRow → M unit) (req_body : SplitRequest jsnum)
    (w : World) (tId oId st : string) :
  validateSplitRequest req_body = Ok tt →
  tableId req_body = Some tId →
  orderId req_body = Some oId →
  splitType req_body = Some st →
  splitBill_with E F afterCommit req_body w
  = let sent := {| orders := orders w; txn := txn w;
                   trace := trace w ++ [EvFetch oId tId] |} in
    match fetch_fault F with
    | Some m => (Ok (res_status_json 400 (ErrorBody m)), sent)
    | None =>
        match head (filter (λ r, row_id r = oId ∧ table_id r = tId)
                           (orders w)) with
        | None =>
            (Ok (res_status_json 404 (ErrorBody "Order not found")), sent)
        | Some order =>
            match json_data order with
            | None =>
                (Ok (res_status_json 400
                       (ErrorBody "order.json_data is undefined")), sent)
            | Some items =>
                match request_splits E st req_body items with
                | Throw e | Ok (Raises e) =>
                    (Ok (res_status_json 400 (ErrorBody (message e))), sent)
                | Ok Exhausts =>
                    (Throw (Fatal "JavaScript heap out of memory"), sent)
                | Ok (Returns shares) =>
                    let run := createSplitOrders_with F afterCommit order
                                 shares tId oId sent in
                    (Ok (answer_of run.1), run.2)
                end
            end
        end
    end.
Proof.
  intros Hv Ht Ho Hs. unfold splitBill_with.
  rewrite bind_run, try_catch_run, bind_run. unfold lift at 1.
  rewrite Hv, Ht, Ho, Hs. cbn [field]. rewrite !bind_ret_run.
  rewrite bind_run, pool_query_order_run. cbn zeta.
  destruct (fetch_fault F) as [m|]; [reflexivity|].
  cbn [orders]. destruct (filter _ (orders w)) as [|order rows];
    [reflexivity|].
  cbn [head]. destruct (json_data order) as [items|]; [|reflexivity].
  cbn [field]. rewrite bind_ret_run, bind_run, request_splits_run.
  destruct (request_splits E st req_body items) as [[shares|e|]|e];
    [|reflexivity..].
  rewrite bind_run.
  by destruct (createSplitOrders_with F afterCommit order shares tId oId _)
    as [[results|e] w2].
Qed.

(** What a run of the workflow that answers can be: an answer given
    before any connection is taken, with at most the lookup sent, or the
    answer that relays the outcome of [createSplitOrders] on the order
    found. *)
Lemma splitBill_with_outcome (E : Engine) (F : StoreFaults)
    (afterCommit : OrderRow → M unit) (req_body : SplitRequest jsnum)
    (w : World) (resp : Response) (w' : World) :
  splitBill_with E F afterCommit req_body w = (Ok resp, w') →
  ((∃ m, body resp = ErrorBody m)
   ∧ orders w' = orders w ∧ txn w' = txn w
   ∧ (trace w' = trace w ∨ ∃ o t, trace w' = trace w ++ [EvFetch o t]))
  ∨ (∃ order shares tId oId r,
       createSplitOrders_with F afterCommit order shares tId oId
         {| orders := orders w; txn := txn w;
            trace := trace w ++ [EvFetch oId tId] |} = (r, w')
       ∧ resp = answer_of r).
Proof.
  destruct (validateSplitRequest req_body) as [[]|e] eqn:Hv.
  2:{ rewrite (splitBill_with_invalid _ _ _ _ _ _ Hv). intros [= <- <-].
      left. split_and!; [by eexists|done|done|by left]. }
  destruct (validated_fields req_body Hv) as (tId & oId & st & Ht & Ho & Hs).
  rewrite (splitBill_with_valid_run _ _ _ _ _ _ _ _ Hv Ht Ho Hs). cbn zeta.
  assert (∀ m : string,
            (Ok (res_status_json 400 (ErrorBody m)),
             {| orders := orders w; txn := txn w;
                trace := trace w ++ [EvFetch oId tId] |}) = (Ok resp, w') →
            (∃ m, body resp = ErrorBody m)
            ∧ orders w' = orders w ∧ txn w' = txn w
            ∧ (trace w' = trace w
               ∨ ∃ o t, trace w' = trace w ++ [EvFetch o t])) as Hearly.
  { intros m [= <- <-].
    split_and!; [by eexists|done|done|right; by do 2 eexists]. }
  destruct (fetch_fault F) as [m|]; [intros H; left; by eapply Hearly|].
  destruct (head _) as [order|].
  2:{ intros [= <- <-]. left.
      split_and!; [by eexists|done|done|right; by do 2 eexists]. }
  destruct (json_data order) as [items|];
    [|intros H; left; by eapply Hearly].
  destruct (request_splits E st req_body items) as [[shares|e|]|e];
    [|intros H; left; by eapply Hearly|discriminate
     |intros H; left; by eapply Hearly].
  intros [= <- <-]. right. exists order, shares, tId, oId.
  eexists. split; [apply surjective_pairing|done].
Qed.

(** When the lookup finds an order with items, the answer relays the
    outcome of [createSplitOrders] on the shares of the request. *)
Lemma splitBill_with_relays (E : Engine) (F : StoreFaults)
    (afterCommit : OrderRow → M unit) (req_body : SplitRequest jsnum)
    (w : World) (tId oId : string) (order : OrderRow)
    (items : ItemMap jsnum) (shares : list (ItemMap jsnum)) :
  validateSplitRequest req_body = Ok tt →
  tableId req_body = Some tId →
  orderId req_body = Some oId →
  fetch_fault F = None →
  head (filter (λ r, row_id r = oId ∧ table_id r = tId) (orders w))
  = Some order →
  json_data order = Some items →
  request_shares E req_body items shares →
  splitBill_with E F afterCommit req_body w
  = match createSplitOrders_with F afterCommit order shares tId oId
            {| orders := orders w; txn := txn w;
               trace := trace w ++ [EvFetch oId tId] |} with
    | (Ok results, w') =>
        (Ok (res_json (SuccessBody "Bill split successful" results)), w')
    | (Throw e, w') =>
        (Ok (res_status_json 400 (ErrorBody (message e))), w')
    end.
Proof.
  intros Hv Ht Ho Hfetch Hhead Hitems Hshares.
  destruct (validated_fields req_body Hv) as (? & ? & st & _ & _ & Hs).
  rewrite (splitBill_with_valid_run _ _ _ _ _ _ _ _ Hv Ht Ho Hs). cbn zeta.
  rewrite Hfetch, Hhead, Hitems.
  rewrite (request_shares_splits _ _ _ _ _ Hs Hshares).
  by destruct (createSplitOrders_with F afterCommit order shares tId oId _)
    as [[results|e] w2].
Qed.

(** The workflow up to the lookup. *)
Lemma splitBill_with_lookup_fails (E : Engine) (F : StoreFaults)
    (afterCommit : OrderRow → M unit) (req_body : SplitRequest jsnum)
    (w : World) (tId oId : string) :
  validateSplitRequest req_body = Ok tt →
  tableId req_body = Some tId →
  orderId req_body = Some oId →
  let sent := {| orders := orders w; txn := txn w;
                 trace := trace w ++ [EvFetch oId tId] |} in
  (∀ m, fetch_fault F = Some m →
     splitBill_with E F afterCommit req_body w
     = (Ok (res_status_json 400 (ErrorBody m)), sent))
  ∧ (fetch_fault F = None →
     filter (λ r, row_id r = oId ∧ table_id r = tId) (orders w) = [] →
     splitBill_with E F afterCommit req_body w
     = (Ok (res_status_json 404 (ErrorBody "Order not found")), sent)).
Proof.
  intros Hv Ht Ho sent.
  destruct (validated_fields req_body Hv) as (? & ? & st & _ & _ & Hs).
  rewrite (splitBill_with_valid_run _ _ _ _ _ _ _ _ Hv Ht Ho Hs). cbn zeta.
  split; [intros m Hfetch|intros Hfetch Hnone]; rewrite Hfetch; [done|].
  by rewrite Hnone.
Qed.

(** The workflow when the order is found and the shares cannot be
    computed. *)
Lemma splitBill_with_no_shares (E : Engine) (F : StoreFaults)
    (afterCommit : OrderRow → M unit) (req_body : SplitRequest jsnum)
    (w : World) (tId oId : string) (order : OrderRow) :
  validateSplitRequest req_body = Ok tt →
  tableId req_body = Some tId →
  orderId req_body = Some oId →
  fetch_fault F = None →
  head (filter (λ r, row_id r = oId ∧ table_id r = tId) (orders w))
  = Some order →
  let sent := {| orders := orders w; txn := txn w;
                 trace := trace w ++ [EvFetch oId tId] |} in
  (json_data order = None →
   ∃ m, splitBill_with E F afterCommit req_body w
        = (Ok (res_status_json 400 (ErrorBody m)), sent))
  ∧ (∀ items c e,
       json_data order = Some items →
       splitType req_body = Some "portion" →
       count req_body = Some c →
       calculatePortionSplit E items c = Raises e →
       splitBill_with E F afterCommit req_body w
       = (Ok (res_status_json 400 (ErrorBody (message e))), sent))
  ∧ (∀ items c,
       json_data order = Some items →
       splitType req_body = Some "portion" →
       count req_body = Some c →
       calculatePortionSplit E items c = Exhausts →
       splitBill_with E F afterCommit req_body w
       = (Throw (Fatal "JavaScript heap out of memory"), sent)).
Proof.
  intros Hv Ht Ho Hfetch Hhead sent.
  destruct (validated_fields req_body Hv) as (? & ? & st & _ & _ & Hs).
  rewrite (splitBill_with_valid_run _ _ _ _ _ _ _ _ Hv Ht Ho Hs). cbn zeta.
  rewrite Hfetch, Hhead.
  split_and!.
  - intros ->. by eexists.
  - intros items c e -> Hs' Hc Hcalc.
    assert (st = "portion") as -> by congruence.
    unfold request_splits. by rewrite bool_decide_true, Hc, Hcalc.
  - intros items c -> Hs' Hc Hcalc.
    assert (st = "portion") as -> by congruence.
    unfold request_splits. by rewrite bool_decide_true, Hc, Hcalc.
Qed.

(** The status of every answer. *)
Lemma splitBill_with_response (E : Engine) (F : StoreFaults)
    (afterCommit : OrderRow → M unit) (req_body : SplitRequest jsnum)
    (w : World) (resp : Response) (w' : World) :
  splitBill_with E F afterCommit req_body w = (Ok resp, w') →
  match body resp with
  | SuccessBody m results =>
      status resp = 200%nat ∧ m = "Bill split successful"
  | ErrorBody m =>
      if order_not_found F req_body w
      then status resp = 404%nat ∧ m = "Order not found"
      else status resp = 400%nat
  end.
Proof.
  unfold order_not_found.
  destruct (validateSplitRequest req_body) as [[]|e] eqn:Hv.
  2:{ rewrite (splitBill_with_invalid _ _ _ _ _ _ Hv).
      by intros [= <- <-]. }
  destruct (validated_fields req_body Hv) as (tId & oId & st & Ht & Ho & Hs).
  rewrite (splitBill_with_valid_run _ _ _ _ _ _ _ _ Hv Ht Ho Hs). cbn zeta.
  rewrite Ht, Ho. cbn [is_ok andb].
  destruct (fetch_fault F) as [m|]; [by intros [= <- <-]|].
  rewrite (bool_decide_true (None = None)) by done. cbn [andb].
  destruct (filter _ (orders w)) as [|order rows]; [by intros [= <- <-]|].
  cbn [head]. destruct (json_data order) as [items|];
    [|by intros [= <- <-]].
  destruct (request_splits E st req_body items) as [[shares|e|]|e];
    [|by intros [= <- <-]|discriminate|by intros [= <- <-]].
  intros [= <- <-].
  by destruct (createSplitOrders_with F afterCommit order shares tId oId _).1.
Qed.

(** C8, as amended.  Every failure of either copy of the workflow is
    answered with a body of the shape [{ error: string }]: with status 400
    and the validator's message when validation fails, with 400 and the
    store's message when the lookup raises an error, with 404 and
    [Order not found] when no row has the order id and the table id, with
    400 when the order found has no items, with 400 and the message of
    the error when the calculator raises one, and with 400 and the message
    of the error when [createSplitOrders] throws; the answer is a success
    only when [createSplitOrders] has returned, and there is no answer at
    all only when the engine runs out of memory building the shares.  So
    every error body comes with status 400, except that of the order not
    found, which comes with 404. *)
Theorem failure_response_status (E : Engine) (F : StoreFaults)
    (completeOrder : string → string → jsnum → string → list OrderRow
                     → result bool * list OrderRow)
    (completeOrderController :
       Ctrl.MockReq → list OrderRow → result (option nat) * list OrderRow)
    (req_body : SplitRequest jsnum) (w : World) :
  let run1 := Util.splitBill E F completeOrder req_body w in
  let run2 := Ctrl.splitBill E F completeOrderController req_body w in
  let both (code : nat) (m : string) (w' : World) : Prop :=
    run1 = (Ok (res_status_json code (ErrorBody m)), w')
    ∧ run2 = (Ok (res_status_json code (ErrorBody m)), w') in
  (∀ e, validateSplitRequest req_body = Throw e →
        both 400%nat (message e) w)
  ∧ (∀ tId oId,
       validateSplitRequest req_body = Ok tt →
       tableId req_body = Some tId →
       orderId req_body = Some oId →
       let sent := {| orders := orders w; txn := txn w;
                      trace := trace w ++ [EvFetch oId tId] |} in
       (∀ m, fetch_fault F = Some m → both 400%nat m sent)
       ∧ (fetch_fault F = None →
          filter (λ r, row_id r = oId ∧ table_id r = tId) (orders w) = [] →
          both 404%nat "Order not found" sent)
       ∧ (∀ order,
            fetch_fault F = None →
            head (filter (λ r, row_id r = oId ∧ table_id r = tId)
                         (orders w)) = Some order →
            (json_data order = None → ∃ m, both 400%nat m sent)
            ∧ (∀ items c e,
                 json_data order = Some items →
                 splitType req_body = Some "portion" →
                 count req_body = Some c →
                 calculatePortionSplit E items c = Raises e →
                 both 400%nat (message e) sent)
            ∧ (∀ items c,
                 json_data order = Some items →
                 splitType req_body = Some "portion" →
                 count req_body = Some c →
                 calculatePortionSplit E items c = Exhausts →
                 is_ok run1.1 = false ∧ is_ok run2.1 = false)
            ∧ (∀ items shares,
                 json_data order = Some items →
                 request_shares E req_body items shares →
                 (∀ e w',
                    Util.createSplitOrders F completeOrder order shares
                      tId oId sent = (Throw e, w') →
                    run1 = (Ok (res_status_json 400 (ErrorBody (message e))),
                            w'))
                 ∧ (∀ e w',
                      Ctrl.createSplitOrders F completeOrderController order
                        shares tId oId sent = (Throw e, w') →
                      run2
                      = (Ok (res_status_json 400 (ErrorBody (message e))),
                         w'))
                 ∧ (∀ results w',
                      Util.createSplitOrders F completeOrder order shares
                        tId oId sent = (Ok results, w') →
                      run1
                      = (Ok (res_json (SuccessBody "Bill split successful"
                                                   results)), w'))
                 ∧ (∀ results w',
                      Ctrl.createSplitOrders F completeOrderController order
                        shares tId oId sent = (Ok results, w') →
                      run2
                      = (Ok (res_json (SuccessBody "Bill split successful"
                                                   results)), w')))))
  ∧ (∀ resp w',
       run1 = (Ok resp, w') ∨ run2 = (Ok resp, w') →
       match body resp with
       | SuccessBody m results =>
           status resp = 200%nat ∧ m = "Bill split successful"
       | ErrorBody m =>
           if order_not_found F req_body w
           then status resp = 404%nat ∧ m = "Order not found"
           else status resp = 400%nat
       end).
Proof.
  intros run1 run2 both. subst run1 run2 both.
  unfold Util.splitBill, Ctrl.splitBill, Util.createSplitOrders,
    Ctrl.createSplitOrders.
  split_and!.
  - intros e Hv. by rewrite !(splitBill_with_invalid _ _ _ _ _ _ Hv).
  - intros tId oId Hv Ht Ho. split_and!.
    + intros m Hm. split;
        apply (proj1 (splitBill_with_lookup_fails _ _ _ _ _ _ _ Hv Ht Ho)),
          Hm.
    + intros Hfetch Hnone. split;
        by apply (proj2 (splitBill_with_lookup_fails _ _ _ _ _ _ _
                           Hv Ht Ho)).
    + intros order Hfetch Hhead. split_and!.
      * intros Hnull.
        destruct (validated_fields req_body Hv)
          as (? & ? & st & _ & _ & Hs).
        exists "order.json_data is undefined".
        rewrite !(splitBill_with_valid_run _ _ _ _ _ _ _ _ Hv Ht Ho Hs).
        cbn zeta. by rewrite Hfetch, Hhead, Hnull.
      * intros items c e Hitems Hs Hc Hcalc. split;
          by apply (proj1 (proj2 (splitBill_with_no_shares _ _ _ _ _ _ _ _
                                    Hv Ht Ho Hfetch Hhead)) items c e).
      * intros items c Hitems Hs Hc Hcalc.
        by rewrite !(proj2 (proj2 (splitBill_with_no_shares _ _ _ _ _ _ _ _
                                     Hv Ht Ho Hfetch Hhead))
                       items c Hitems Hs Hc Hcalc).
      * intros items shares Hitems Hshares.
        split_and!; intros x w' Hrun;
          rewrite (splitBill_with_relays _ _ _ _ _ _ _ _ _ _
                     Hv Ht Ho Hfetch Hhead Hitems Hshares);
          by rewrite Hrun.
  - intros resp w' [Hrun|Hrun];
      by apply splitBill_with_response in Hrun.
Qed.

Lemma failure_response_status_witness :
  Util.splitBill sample_engine fetch_refused completeOrder_ok
    sample_portion_request (init_world [sample_order])
  = (Ok (res_status_json 400 (ErrorBody "connection refused")),
     {| orders := [sample_order]; txn := None;
        trace := [] ++ [EvFetch "order-123" "table-1"] |})
  ∧ Ctrl.splitBill sample_engine fetch_refused controller_ok
      sample_portion_request (init_world [sample_order])
    = (Ok (res_status_json 400 (ErrorBody "connection refused")),
       {| orders := [sample_order]; txn := None;
          trace := [] ++ [EvFetch "order-123" "table-1"] |}).
Proof.
  refine (proj1 (proj1 (proj2 (failure_response_status sample_engine
                                 fetch_refused completeOrder_ok
                                 controller_ok sample_portion_request
                                 (init_world [sample_order])))
                   "table-1" "order-123" _ _ _) "connection refused" _).
  - vm_compute. reflexivity.
  - reflexivity.
  - reflexivity.
  - reflexivity.
Defined.

(** C8 as written fails when no order matches: the answer is 404. *)
Lemma not_found_status_404 :
  validateSplitRequest sample_portion_request = Ok tt
  ∧ (Util.splitBill sample_engine no_faults completeOrder_ok
       sample_portion_request (init_world [])).1
    = Ok (res_status_json 404 (ErrorBody "Order not found"))
  ∧ (Ctrl.splitBill sample_engine no_faults controller_ok
       sample_portion_request (init_world [])).1
    = Ok (res_status_json 404 (ErrorBody "Order not found"))
  ∧ status (res_status_json 404 (ErrorBody "Order not found")) ≠ 400%nat.
Proof. vm_compute. by split_and!. Qed.

(** ** The calculators: edges, composition, values *)



Section ExactClaims.
Local Open Scope Qc_scope.

(** X4.  A portion split by one returns a single share, in any
    arithmetic; in exact arithmetic that share holds every customization
    of every item other than [__proto__] with its original quantity, the
    original price also recorded as [originalPrice]. *)
Theorem portion_split_by_one (E : Engine) :
  (1 ≤ array_capacity E)%Z →
  (∀ (N : Type) (A : Arith N) (items : ItemMap N) (count : N),
     num_is_number count = true →
     num_toZ count = Some 1%Z →
     calculatePortionSplit E items count
     = Returns [share_of (λ q, num_div q count) items]%list)
  ∧ (∀ items : ItemMap Qc,
       calculatePortionSplit E items (num 1)
       = Returns [share_of (λ q, q) items]%list).
Proof.
  intros Hcap. split.
  - intros N A items count Hnum Hn.
    rewrite (calculatePortionSplit_Returns E items count 1 Hnum Hn);
      [done|unfold max_array_length; lia|done].
  - intros items.
    rewrite exact_portion_split by (unfold max_array_length; lia).
    change (Z.to_nat 1) with 1%nat. cbn [replicate]. do 2 f_equal.
    apply share_of_ext. intros q. unfold num. rewrite Z2Qc_inj_1.
    apply (right_id 1 Qcdiv).
Qed.

Lemma portion_split_by_one_witness :
  calculatePortionSplit sample_engine exact_items (num 1)
  = Returns [share_of (λ q, q) exact_items]%list.
Proof.
  apply (proj2 (portion_split_by_one sample_engine ltac:(simpl; lia))).
Defined.

(** X6.  In exact arithmetic portion splits compose: splitting by [n]
    and then splitting one of the shares by [m] gives the shares of a
    split by [n * m], when the engine can allocate that many.  In doubles
    the quotients of the two steps are rounded twice and may differ from
    the quotient of the single step. *)
Theorem portion_split_composes (E : Engine) (items : ItemMap Qc) (n m : Z)
    (shares subshares : list (ItemMap Qc)) (share subshare : ItemMap Qc) :
  (1 ≤ n)%Z → (1 ≤ m)%Z →
  (n * m ≤ max_array_length)%Z →
  (n * m ≤ array_capacity E)%Z →
  calculatePortionSplit E items (num n) = Returns shares →
  share ∈ shares →
  calculatePortionSplit E share (num m) = Returns subshares →
  subshare ∈ subshares →
  calculatePortionSplit E items (num (n * m))
  = Returns (replicate (Z.to_nat (n * m)) subshare).
Proof.
  intros Hn Hm Hnm Hcap Hshares Hshare Hsubs Hsub.
  apply exact_portion_split_inv in Hshares as (_ & _ & ->).
  apply elem_of_replicate in Hshare as [-> _].
  apply exact_portion_split_inv in Hsubs as (_ & _ & ->).
  apply elem_of_replicate in Hsub as [-> _].
  rewrite exact_portion_split by lia. do 2 f_equal.
  rewrite share_of_compose. apply share_of_ext. intros q.
  unfold num. rewrite Z2Qc_inj_mul. field.
  split; apply (num_nonzero _); done.
Qed.

Lemma portion_split_composes_witness :
  calculatePortionSplit sample_engine exact_items (num (2 * 3))
  = Returns (replicate (Z.to_nat (2 * 3))
               (share_of (λ q, q / num 3)
                         (share_of (λ q, q / num 2) exact_items)))
  ∧ num_div (jdec 1 3) (jnum 11) ≠ jdec 1 33.
Proof.
  split; [|discriminate].
  apply (portion_split_composes sample_engine exact_items 2 3
           (replicate 2 (share_of (λ q, q / num 2) exact_items))
           (replicate 3 (share_of (λ q, q / num 3)
                           (share_of (λ q, q / num 2) exact_items)))
           (share_of (λ q, q / num 2) exact_items)).
  - lia.
  - lia.
  - unfold max_array_length. lia.
  - simpl. lia.
  - apply (exact_portion_split sample_engine exact_items 2);
      [unfold max_array_length; lia|simpl; lia].
  - apply elem_of_replicate. split; [reflexivity|lia].
  - apply (exact_portion_split sample_engine _ 3);
      [unfold max_array_length; lia|simpl; lia].
  - apply elem_of_replicate. split; [reflexivity|lia].
Defined.

(** X7.  In exact arithmetic a portion split keeps the value of every
    item other than [__proto__]: the values the shares hold for the item,
    quantity times unit price over its customizations, add up to the
    value of the original item. *)
Theorem portion_split_keeps_value (E : Engine) (items : ItemMap Qc) (n : Z)
    (shares : list (ItemMap Qc)) (itemId : string) (line : ItemLine Qc) :
  (1 ≤ n)%Z →
  calculatePortionSplit E items (num n) = Returns shares →
  itemId ≠ "__proto__" →
  items !! itemId = Some line →
  Qcsum (share_line_total itemId <$> shares) = line_total line.
Proof.
  intros Hn (_ & _ & ->)%exact_portion_split_inv Hne Hline.
  rewrite fmap_replicate, Qcsum_replicate.
  rewrite (share_line_total_share_of (λ q, q / num n) (/ num n) _ _ _
             (λ q, eq_refl) Hne Hline).
  rewrite Z2Nat.id by lia. field. by apply num_nonzero.
Qed.

Lemma portion_split_keeps_value_witness :
  Qcsum (share_line_total "item-1"
           <$> replicate 3 (share_of (λ q, q / num 3) exact_items))
  = line_total exact_line.
Proof.
  apply (portion_split_keeps_value sample_engine exact_items 3).
  - lia.
  - apply (exact_portion_split sample_engine exact_items 3);
      [unfold max_array_length; lia|simpl; lia].
  - discriminate.
  - reflexivity.
Defined.

(** X8.  In exact arithmetic a percentage split scales the value of
    every item other than [__proto__] by the sum of the percentages: the
    values the shares hold for the item add up to the value of the
    original item times [sum / 100], hence to that value itself when the
    percentages sum to exactly 100. *)
Theorem percentage_split_scales_value (items : ItemMap Qc) (ps : list Qc)
    (itemId : string) (line : ItemLine Qc) :
  itemId ≠ "__proto__" →
  items !! itemId = Some line →
  Qcsum (share_line_total itemId <$> calculatePercentageSplit items ps)
  = (line_total line * foldl (λ acc curr, acc + curr) 0 ps) / num 100
  ∧ (foldl (λ acc curr, acc + curr) 0 ps = num 100 →
     Qcsum (share_line_total itemId <$> calculatePercentageSplit items ps)
     = line_total line).
Proof.
  intros Hne Hline.
  assert (Qcsum (share_line_total itemId
                   <$> calculatePercentageSplit items ps)
          = (line_total line * foldl (λ acc curr, acc + curr) 0 ps)
            / num 100) as Heq.
  { rewrite exact_percentage_split, reduce_sum_Qcsum.
    rewrite <-list_fmap_compose, <-Qcsum_scale. f_equal.
    apply list_fmap_ext. intros _ p _. simpl.
    assert (∀ q, (q * p) / num 100 = q * (p / num 100)) as Hg
      by (intros q; unfold Qcdiv; ring).
    rewrite (share_line_total_share_of _ (p / num 100) _ _ _ Hg Hne Hline).
    unfold Qcdiv. ring. }
  split; [exact Heq|]. intros Hsum. rewrite Heq, Hsum.
  field. by apply num_nonzero.
Qed.

Lemma percentage_split_scales_value_witness :
  Qcsum (share_line_total "item-1"
           <$> calculatePercentageSplit exact_items
                 [num 40; num 35; num 25])
  = line_total exact_line.
Proof.
  refine (proj2 (percentage_split_scales_value exact_items
                   [num 40; num 35; num 25] "item-1" _ _ _) _).
  - discriminate.
  - reflexivity.
  - apply Qc_is_canon. reflexivity.
Defined.
End ExactClaims.

(** ** Runs of createSplitOrders, failure by failure *)

Lemma append_inj_r (s a b : string) : s +:+ a = s +:+ b → a = b.
Proof. induction s as [|c s IH]; simpl; [done|]. intros [= H]. auto. Qed.

Lemma split_order_id_inj (O : string) (i j : nat) :
  split_order_id O i = split_order_id O j → i = j.
Proof.
  unfold split_order_id. intros H%append_inj_r%append_inj_r.
  apply (inj pretty) in H. lia.
Qed.

Lemma derived_results_ids (O : string) (first : OrderRow)
    (splits : list (ItemMap jsnum)) :
  res_orderId <$> derived_results O first 0 splits
  = split_order_id O <$> seq 0 (length splits).
Proof.
  unfold derived_results. apply list_eq. intros k.
  rewrite !list_lookup_fmap, list_lookup_imap.
  destruct (splits !! k) as [s|] eqn:Hk; simpl.
  - apply lookup_lt_Some in Hk as Hlt.
    by rewrite (lookup_seq_lt _ _ _ Hlt).
  - apply lookup_ge_None in Hk. by rewrite lookup_seq_ge.
Qed.

Lemma expected_results_ids (O : string) (db : list OrderRow)
    (splits : list (ItemMap jsnum)) :
  NoDup (res_orderId <$> expected_results O db splits)
  ∧ O ∉ res_orderId <$> expected_results O db splits.
Proof.
  unfold expected_results. destruct (head _) as [first|].
  - rewrite derived_results_ids. split.
    + apply NoDup_fmap_2; [|apply NoDup_seq].
      intros i j. apply split_order_id_inj.
    + intros (i & Hi & _)%list_elem_of_fmap.
      by apply (split_order_id_ne O i).
  - split; [constructor|]. by intros ?%elem_of_nil.
Qed.

Section FailedRuns.
Variable F : StoreFaults.
Variable afterCommit : OrderRow → M unit.

Lemma insert_split_orders_first_fault (O : string) (i : nat)
    (s : ItemMap jsnum) (rest : list (ItemMap jsnum))
    (results : list SplitResult)
    (w : World) (m : string) :
  insert_fault F i = Some m →
  insert_split_orders F O i (s :: rest) results w
  = (Throw (StoreError m),
     {| orders := orders w; txn := txn w;
        trace := trace w ++ [EvInsert (split_order_id O i) s O] |}).
Proof.
  intros Hi. cbn [insert_split_orders].
  by rewrite bind_run, client_query_INSERT_run, Hi.
Qed.

Lemma insert_split_orders_no_row (O : string) (i : nat)
    (s : ItemMap jsnum) (rest : list (ItemMap jsnum))
    (results : list SplitResult)
    (w : World) (v : list OrderRow) :
  insert_fault F i = None →
  txn w = Some v →
  select_by_id O v = [] →
  insert_split_orders F O i (s :: rest) results w
  = (Throw (Error (msg_failed_insert (split_order_id O i))),
     {| orders := orders w; txn := Some v;
        trace := trace w ++ [EvInsert (split_order_id O i) s O] |}).
Proof.
  intros Hi Htxn Hsel. cbn [insert_split_orders].
  rewrite bind_run, client_query_INSERT_run, Hi.
  cbn zeta. unfold view, write_view. cbn [orders txn trace].
  rewrite Htxn. cbn [from_option]. rewrite Hsel.
  cbn. by rewrite (right_id_L [] (++)).
Qed.

(** The [catch] and [finally] blocks, as an equation. *)
Lemma rollback_release_run (e : exn) (w : World) :
  try_finally (A:=list SplitResult)
    (client_query_ROLLBACK F ;; throw e) client_release w
  = (Throw (match rollback_fault F with
            | Some m => StoreError m
            | None => e
            end),
     {| orders := orders w;
        txn := match rollback_fault F with
               | Some _ => txn w
               | None => None
               end;
        trace := trace w ++ [EvRollback; EvRelease] |}).
Proof.
  rewrite try_finally_run, bind_run, client_query_ROLLBACK_run.
  destruct (rollback_fault F); cbn; by rewrite <-(assoc_L (++)).
Qed.

(** A transaction that fails on an acquired connection: the operation is
    the [catch] and [finally] blocks run on the first error [e0], in a
    world where the committed rows are unchanged and only statements of
    the transaction have been sent. *)
Lemma createSplitOrders_with_failed_run (originalOrder : OrderRow)
    (splits : list (ItemMap jsnum)) (tableId O : string) (db : list OrderRow)
    (t : list event) :
  transaction_fails F O db splits →
  connect_fault F = None →
  ∃ e0 w2 evs,
    createSplitOrders_with F afterCommit originalOrder splits tableId O
      {| orders := db; txn := None; trace := t |}
    = try_finally (client_query_ROLLBACK F ;; throw e0) client_release w2
    ∧ orders w2 = db
    ∧ trace w2 = t ++ [EvConnect] ++ evs
    ∧ Forall (λ ev, is_txn_statement ev = true) evs
    ∧ (begin_fault F = None → is_Some (txn w2))
    ∧ (∀ m, begin_fault F = Some m → e0 = StoreError m)
    ∧ (∀ s rest m, begin_fault F = None → splits = s :: rest →
         insert_fault F 0 = Some m →
         e0 = StoreError m ∧ evs = [EvBegin; EvInsert (split_order_id O 0) s O])
    ∧ (∀ s rest, begin_fault F = None → splits = s :: rest →
         insert_fault F 0 = None → select_by_id O db = [] →
         e0 = Error (msg_failed_insert (split_order_id O 0))
         ∧ evs = [EvBegin; EvInsert (split_order_id O 0) s O]).
Proof.
  intros Hfail Hconn.
  unfold createSplitOrders_with. rewrite bind_run, pool_connect_run, Hconn.
  set (w1 := {| orders := db; txn := None; trace := t ++ [EvConnect] |}).
  set (body := (client_query_BEGIN F ;; _)).
  assert (∃ e0 w2 evs, body w1 = (Throw e0, w2) ∧ orders w2 = db
            ∧ trace w2 = t ++ [EvConnect] ++ evs
            ∧ Forall (λ ev, is_txn_statement ev = true) evs
            ∧ (begin_fault F = None → is_Some (txn w2))
            ∧ (∀ m, begin_fault F = Some m → e0 = StoreError m)
            ∧ (∀ s rest m, begin_fault F = None → splits = s :: rest →
                 insert_fault F 0 = Some m →
                 e0 = StoreError m
                 ∧ evs = [EvBegin; EvInsert (split_order_id O 0) s O])
            ∧ (∀ s rest, begin_fault F = None → splits = s :: rest →
                 insert_fault F 0 = None → select_by_id O db = [] →
                 e0 = Error (msg_failed_insert (split_order_id O 0))
                 ∧ evs = [EvBegin; EvInsert (split_order_id O 0) s O]))
    as (e0 & w2 & evs & Hbody & Hrest).
  { subst body. rewrite bind_run, client_query_BEGIN_run.
    destruct (begin_fault F) as [m|] eqn:Hbegin.
    { do 2 eexists. exists [EvBegin]%list. subst w1. cbn [orders txn trace].
      split_and!; [done|done|by rewrite <-(assoc_L (++))
                  |by repeat constructor|done|by intros ? [= <-]
                  |done|done]. }
    subst w1. cbn [orders txn trace from_option]. rewrite bind_run.
    set (wb := {| orders := db; txn := Some db;
                  trace := (t ++ [EvConnect]) ++ [EvBegin] |}).
    destruct (insert_split_orders F O 0 splits [] wb) as [r w2] eqn:Hloop.
    pose proof Hloop as Hinv.
    apply insert_split_orders_inv in Hinv
      as (Ho & Htxn & ievs & Htr & Hievs); [|by eexists].
    unfold wb in Ho, Htr. cbn [orders txn trace] in Ho, Htr.
    assert (Forall (λ ev, is_txn_statement ev = true) ievs) as Hievs'.
    { eapply Forall_impl; [exact Hievs|]. by intros []. }
    destruct r as [results|e].
    - rewrite bind_run, client_query_COMMIT_run.
      destruct (commit_fault F) as [m|] eqn:Hcommit.
      + do 2 eexists. exists ([EvBegin] ++ ievs ++ [EvCommit]).
        cbn [orders txn trace]. rewrite Htr, <-!(assoc_L (++)).
        split_and!; [done|done|done| |done|done| |].
        * repeat (apply Forall_app; split); by repeat constructor.
        * intros s rest m' _ -> Hi.
          rewrite (insert_split_orders_first_fault O 0 s rest [] wb m' Hi)
            in Hloop. discriminate Hloop.
        * intros s rest _ -> Hi Hsel.
          rewrite (insert_split_orders_no_row O 0 s rest [] wb db Hi
                     eq_refl Hsel) in Hloop. discriminate Hloop.
      + destruct Hfail as [?|[?|[Hif|?]]]; [done|done| |done].
        destruct (insert_split_orders_fail F O splits 0 [] wb db eq_refl)
          as (e & w3 & Hthrow); [|congruence].
        destruct Hif as [(k & Hk & Hf)|Hif]; [left|by right].
        by exists k.
    - do 2 eexists. exists ([EvBegin] ++ ievs).
      rewrite Htr, <-!(assoc_L (++)).
      split_and!; [done|done|done| |done|done| |].
      + apply Forall_app; split; by repeat constructor.
      + intros s rest m' _ -> Hi.
        rewrite (insert_split_orders_first_fault O 0 s rest [] wb m' Hi)
          in Hloop. injection Hloop as <- <-. cbn [trace] in Htr.
        split; [done|]. by apply (inj (app _)) in Htr as <-.
      + intros s rest _ -> Hi Hsel.
        rewrite (insert_split_orders_no_row O 0 s rest [] wb db Hi
                   eq_refl Hsel) in Hloop.
        injection Hloop as <- <-. cbn [trace] in Htr.
        split; [done|]. by apply (inj (app _)) in Htr as <-. }
  rewrite (try_blocks_throw _ _ _ _ _ _ Hbody).
  by exists e0, w2, evs.
Qed.
End FailedRuns.

Lemma insert_events_Forall (P : event → Prop) (O : string) (i : nat)
    (splits : list (ItemMap jsnum)) :
  (∀ id s, P (EvInsert id s O)) → Forall P (insert_events O i splits).
Proof.
  intros HP. apply Forall_forall. intros ev Hev. unfold insert_events in Hev.
  apply list_elem_of_lookup in Hev as [k Hk].
  rewrite list_lookup_imap in Hk.
  destruct (splits !! k); simplify_eq/=. apply HP.
Qed.

Ltac events_forall :=
  repeat first
    [ apply Forall_nil_2
    | apply Forall_cons_2; [done|]
    | apply Forall_app; split
    | apply insert_events_Forall; done ].

(** What a run of the second copy can be. *)
Lemma Ctrl_createSplitOrders_cases (F : StoreFaults)
    (completeOrderController :
       Ctrl.MockReq → list OrderRow → result (option nat) * list OrderRow)
    (o : OrderRow) (splits : list (ItemMap jsnum)) (tableId O : string)
    (db : list OrderRow) (t : list event)
    (r : result (list SplitResult)) (w' : World) :
  Ctrl.createSplitOrders F completeOrderController o splits tableId O
    {| orders := db; txn := None; trace := t |} = (r, w') →
  (transaction_commits F O db splits
   ∧ r = Ok (expected_results O db splits)
   ∧ orders w'
     = (completeOrderController
          (Ctrl.mkMockReq (restaurant_id o) (table_id o) (jnum 0) "split")
          (db ++ derived_rows O (select_by_id O db) 0 splits)).2
   ∧ ∃ evs, trace w' = t ++ evs
            ∧ Forall (λ ev, is_rollback ev = false) evs)
  ∨ (transaction_fails F O db splits
     ∧ (∃ e, r = Throw e) ∧ orders w' = db).
Proof.
  destruct (commits_or_fails F O db splits) as [Hc|Hf].
  - rewrite (Ctrl_createSplitOrders_committed _ _ _ _ _ _ _ _ Hc).
    cbn zeta. cbn [committed_world orders trace]. intros [= <- <-].
    left. split_and!; [done|done|done|]. eexists.
    rewrite <-!(assoc_L (++)). split; [done|].
    events_forall.
  - destruct (createSplitOrders_with_not_committed F
                (Ctrl.afterCommit F completeOrderController) o splits
                tableId O db t Hf) as (e & w2 & Hrun & Ho & _).
    unfold Ctrl.createSplitOrders. rewrite Hrun. intros [= <- <-].
    right. split_and!; [done|by eexists|done].
Qed.

(** What a run of the first copy that returns can be. *)
Lemma Util_createSplitOrders_ok (F : StoreFaults)
    (completeOrder : string → string → jsnum → string → list OrderRow
                     → result bool * list OrderRow)
    (o : OrderRow) (splits : list (ItemMap jsnum)) (tableId O : string)
    (db : list OrderRow) (t : list event)
    (results : list SplitResult) (w' : World) :
  Util.createSplitOrders F completeOrder o splits tableId O
    {| orders := db; txn := None; trace := t |} = (Ok results, w') →
  transaction_commits F O db splits
  ∧ results = expected_results O db splits.
Proof.
  destruct (commits_or_fails F O db splits) as [Hc|Hf].
  - rewrite (Util_createSplitOrders_committed _ _ _ _ _ _ _ _ Hc).
    cbn zeta. destruct (completeOrder _ _ _ _ _).1; [|discriminate].
    by intros [= <- _].
  - destruct (createSplitOrders_with_not_committed F
                (Util.afterCommit completeOrder) o splits
                tableId O db t Hf) as (e & w2 & Hrun & _).
    unfold Util.createSplitOrders. rewrite Hrun. discriminate.
Qed.

(** ** Further claims about createSplitOrders *)

(** X9.  The result list of either copy names as many derived ids as
    there are shares, all different from one another and from the id of
    the original order. *)
Theorem derived_ids_distinct (F : StoreFaults)
    (completeOrder : string → string → jsnum → string → list OrderRow
                     → result bool * list OrderRow)
    (completeOrderController :
       Ctrl.MockReq → list OrderRow → result (option nat) * list OrderRow)
    (originalOrder : OrderRow) (splits : list (ItemMap jsnum))
    (tableId O : string) (db : list OrderRow) (t : list event)
    (results : list SplitResult) (w' : World) :
  Util.createSplitOrders F completeOrder originalOrder splits tableId O
    {| orders := db; txn := None; trace := t |} = (Ok results, w')
  ∨ Ctrl.createSplitOrders F completeOrderController originalOrder splits
      tableId O {| orders := db; txn := None; trace := t |}
    = (Ok results, w') →
  length results = length splits
  ∧ NoDup (res_orderId <$> results)
  ∧ O ∉ res_orderId <$> results.
Proof.
  intros Hrun.
  assert (transaction_commits F O db splits
          ∧ results = expected_results O db splits) as [Hc ->].
  { destruct Hrun as [Hrun|Hrun].
    - by apply Util_createSplitOrders_ok in Hrun.
    - apply Ctrl_createSplitOrders_cases in Hrun
        as [(Hc & [= ->] & _)|(_ & [e [=]] & _)]. done. }
  split; [by apply (expected_results_lookup F)|].
  apply expected_results_ids.
Qed.

Lemma derived_ids_distinct_witness :
  ∃ results,
    length results = 2%nat
    ∧ NoDup (res_orderId <$> results)
    ∧ "order-123" ∉ res_orderId <$> results.
Proof.
  destruct (Ctrl.createSplitOrders no_faults controller_ok sample_order
              [sample_items; sample_items] "table-1" "order-123"
              {| orders := [sample_order]; txn := None; trace := [] |})
    as [[results|e] w'] eqn:Hrun.
  - exists results.
    apply (derived_ids_distinct no_faults completeOrder_ok controller_ok
             sample_order [sample_items; sample_items] "table-1"
             "order-123" [sample_order] [] results w').
    right. exact Hrun.
  - vm_compute in Hrun. discriminate Hrun.
Defined.

(** X10.  Either copy hands its connection back whatever happens: when
    the pool gives one, the release is the last thing the operation does
    and it is done once, with no second connection taken; when the pool
    refuses, the operation fails with the pool's error and nothing else
    is sent. *)
Theorem connection_released (F : StoreFaults)
    (completeOrder : string → string → jsnum → string → list OrderRow
                     → result bool * list OrderRow)
    (completeOrderController :
       Ctrl.MockReq → list OrderRow → result (option nat) * list OrderRow)
    (originalOrder : OrderRow) (splits : list (ItemMap jsnum))
    (tableId O : string) (db : list OrderRow) (t : list event) :
  let w0 := {| orders := db; txn := None; trace := t |} in
  let refused (m : string) (run : result (list SplitResult) * World) :=
    run = (Throw (StoreError m),
           {| orders := db; txn := None; trace := t ++ [EvConnect] |}) in
  let released (run : result (list SplitResult) * World) :=
    ∃ evs, trace run.2 = t ++ [EvConnect] ++ evs ++ [EvRelease]
           ∧ Forall (λ ev, is_release ev = false ∧ is_connect ev = false)
                    evs in
  (∀ m, connect_fault F = Some m →
     refused m (Util.createSplitOrders F completeOrder originalOrder
                  splits tableId O w0)
     ∧ refused m (Ctrl.createSplitOrders F completeOrderController
                    originalOrder splits tableId O w0))
  ∧ (connect_fault F = None →
     released (Util.createSplitOrders F completeOrder originalOrder
                 splits tableId O w0)
     ∧ released (Ctrl.createSplitOrders F completeOrderController
                   originalOrder splits tableId O w0)).
Proof.
  intros w0 refused released. split.
  - intros m Hm. unfold refused, Util.createSplitOrders,
      Ctrl.createSplitOrders, createSplitOrders_with.
    by rewrite !bind_run, !pool_connect_run, Hm.
  - intros Hconn.
    assert (∀ evs, Forall (λ ev, is_txn_statement ev = true) evs →
              Forall (λ ev, is_release ev = false ∧ is_connect ev = false)
                     evs) as Hstmts.
    { intros evs H. eapply Forall_impl; [exact H|]. by intros []. }
    destruct (commits_or_fails F O db splits) as [Hc|Hf].
    + split; unfold released, w0.
      * rewrite (Util_createSplitOrders_committed _ _ _ _ _ _ _ _ Hc).
        cbn zeta. cbn [committed_world orders trace].
        destruct (completeOrder _ _ _ _ _).1; cbn [snd trace].
        -- exists ([EvBegin] ++ insert_events O 0 splits
                   ++ [EvCommit; EvComplete (restaurant_id originalOrder)
                                   (table_id originalOrder) (jnum 0) "split"]).
           split; [by rewrite <-!(assoc_L (++))|].
           events_forall.
        -- exists ([EvBegin] ++ insert_events O 0 splits
                   ++ [EvCommit; EvComplete (restaurant_id originalOrder)
                                   (table_id originalOrder) (jnum 0) "split";
                       EvRollback]).
           split; [by rewrite <-!(assoc_L (++))|].
           events_forall.
      * rewrite (Ctrl_createSplitOrders_committed _ _ _ _ _ _ _ _ Hc).
        cbn zeta. cbn [committed_world orders trace snd].
        exists ([EvBegin] ++ insert_events O 0 splits
                ++ [EvCommit; EvComplete (restaurant_id originalOrder)
                                (table_id originalOrder) (jnum 0) "split";
                    EvCheckOrders (restaurant_id originalOrder)
                                  (table_id originalOrder);
                    EvCheckCompleted (restaurant_id originalOrder)
                                     (table_id originalOrder)]).
        split; [by rewrite <-!(assoc_L (++))|].
        events_forall.
    + split; unfold released, w0.
      * destruct (createSplitOrders_with_failed_run F
                    (Util.afterCommit completeOrder) originalOrder splits
                    tableId O db t Hf Hconn)
          as (e0 & w2 & evs & Hrun & _ & Htr & Hevs & _).
        unfold Util.createSplitOrders.
        rewrite Hrun, rollback_release_run. cbn [snd trace].
        exists (evs ++ [EvRollback]). rewrite Htr.
        split; [by rewrite <-!(assoc_L (++))|].
        apply Forall_app; split; [by apply Hstmts|events_forall].
      * destruct (createSplitOrders_with_failed_run F
                    (Ctrl.afterCommit F completeOrderController)
                    originalOrder splits tableId O db t Hf Hconn)
          as (e0 & w2 & evs & Hrun & _ & Htr & Hevs & _).
        unfold Ctrl.createSplitOrders.
        rewrite Hrun, rollback_release_run. cbn [snd trace].
        exists (evs ++ [EvRollback]). rewrite Htr.
        split; [by rewrite <-!(assoc_L (++))|].
        apply Forall_app; split; [by apply Hstmts|events_forall].
Qed.

Lemma connection_released_witness :
  ∃ evs,
    trace (Ctrl.createSplitOrders no_faults controller_throws sample_order
             [sample_items] "table-1" "order-123"
             {| orders := [sample_order]; txn := None; trace := [] |}).2
    = [] ++ [EvConnect] ++ evs ++ [EvRelease]
    ∧ Forall (λ ev, is_release ev = false ∧ is_connect ev = false) evs.
Proof.
  apply (proj2 (connection_released no_faults completeOrder_ok
                  controller_throws sample_order [sample_items] "table-1"
                  "order-123" [sample_order] [])).
  reflexivity.
Defined.

(** X11.  In the second copy the caller learns of a failure exactly when
    nothing was persisted: a run that returns has committed the
    transaction, returns the result of every share, leaves the rows the
    completion collaborator made of the committed ones, and has sent no
    ROLLBACK; a run that throws has failed inside the transaction and
    leaves the committed rows as they were. *)
Theorem second_copy_outcome_matches_store (F : StoreFaults)
    (completeOrderController :
       Ctrl.MockReq → list OrderRow → result (option nat) * list OrderRow)
    (originalOrder : OrderRow) (splits : list (ItemMap jsnum))
    (tableId O : string) (db : list OrderRow) (t : list event)
    (r : result (list SplitResult)) (w' : World) :
  Ctrl.createSplitOrders F completeOrderController originalOrder splits
    tableId O {| orders := db; txn := None; trace := t |} = (r, w') →
  match r with
  | Ok results =>
      transaction_commits F O db splits
      ∧ length results = length splits
      ∧ orders w'
        = (completeOrderController
             (Ctrl.mkMockReq (restaurant_id originalOrder)
                (table_id originalOrder) (jnum 0) "split")
             (db ++ derived_rows O (select_by_id O db) 0 splits)).2
      ∧ ∃ evs, trace w' = t ++ evs
               ∧ Forall (λ ev, is_rollback ev = false) evs
  | Throw e => transaction_fails F O db splits ∧ orders w' = db
  end.
Proof.
  intros [(Hc & -> & Ho & Hevs)|(Hf & [e ->] & Ho)]%Ctrl_createSplitOrders_cases.
  - split_and!; [done| |done|done].
    by apply (expected_results_lookup F).
  - done.
Qed.

Lemma second_copy_outcome_matches_store_witness :
  transaction_fails second_insert_refused "order-123" [sample_order]
    [sample_items; sample_items]
  ∧ orders (Ctrl.createSplitOrders second_insert_refused controller_ok
              sample_order [sample_items; sample_items] "table-1"
              "order-123"
              {| orders := [sample_order]; txn := None; trace := [] |}).2
    = [sample_order]%list.
Proof.
  destruct (Ctrl.createSplitOrders second_insert_refused controller_ok
              sample_order [sample_items; sample_items] "table-1"
              "order-123"
              {| orders := [sample_order]; txn := None; trace := [] |})
    as [[results|e] w'] eqn:Hrun.
  - vm_compute in Hrun. discriminate Hrun.
  - exact (second_copy_outcome_matches_store second_insert_refused
             controller_ok sample_order [sample_items; sample_items]
             "table-1" "order-123" [sample_order] [] (Throw e) w' Hrun).
Defined.

(** X12.  When a statement of the transaction fails and the ROLLBACK sent
    for it fails too, either copy throws the error of the ROLLBACK, not
    the one that made it roll back; the committed rows are unchanged, and
    the connection goes back to the pool last, with the transaction still
    open if BEGIN had opened it. *)
Theorem failed_rollback_masks_error (F : StoreFaults)
    (completeOrder : string → string → jsnum → string → list OrderRow
                     → result bool * list OrderRow)
    (completeOrderController :
       Ctrl.MockReq → list OrderRow → result (option nat) * list OrderRow)
    (originalOrder : OrderRow) (splits : list (ItemMap jsnum))
    (tableId O : string) (db : list OrderRow) (t : list event)
    (m : string) :
  transaction_fails F O db splits →
  connect_fault F = None →
  rollback_fault F = Some m →
  let w0 := {| orders := db; txn := None; trace := t |} in
  let masked (run : result (list SplitResult) * World) :=
    run.1 = Throw (StoreError m)
    ∧ orders run.2 = db
    ∧ last (trace run.2) = Some EvRelease
    ∧ (begin_fault F = None → is_Some (txn run.2)) in
  masked (Util.createSplitOrders F completeOrder originalOrder splits
            tableId O w0)
  ∧ masked (Ctrl.createSplitOrders F completeOrderController originalOrder
              splits tableId O w0).
Proof.
  intros Hf Hconn Hrb w0 masked.
  split; unfold masked, w0.
  - destruct (createSplitOrders_with_failed_run F
                (Util.afterCommit completeOrder) originalOrder splits
                tableId O db t Hf Hconn)
      as (e0 & w2 & evs & Hrun & Ho & Htr & _ & Htxn & _).
    unfold Util.createSplitOrders.
    rewrite Hrun, rollback_release_run, Hrb. cbn [fst snd orders txn trace].
    split_and!; [done|done| |done].
    by rewrite (assoc_L (++) _ [EvRollback]%list [EvRelease]%list),
      last_snoc.
  - destruct (createSplitOrders_with_failed_run F
                (Ctrl.afterCommit F completeOrderController) originalOrder
                splits tableId O db t Hf Hconn)
      as (e0 & w2 & evs & Hrun & Ho & Htr & _ & Htxn & _).
    unfold Ctrl.createSplitOrders.
    rewrite Hrun, rollback_release_run, Hrb. cbn [fst snd orders txn trace].
    split_and!; [done|done| |done].
    by rewrite (assoc_L (++) _ [EvRollback]%list [EvRelease]%list),
      last_snoc.
Qed.

Lemma failed_rollback_masks_error_witness :
  (Ctrl.createSplitOrders rollback_refused controller_ok sample_order
     [sample_items] "table-1" "order-123"
     {| orders := [sample_order]; txn := None; trace := [] |}).1
  = Throw (StoreError "connection terminated").
Proof.
  refine (proj1 (proj2 (failed_rollback_masks_error rollback_refused
                          completeOrder_ok controller_ok sample_order
                          [sample_items] "table-1" "order-123"
                          [sample_order] [] "connection terminated"
                          _ _ _))).
  - do 2 right. left. left. exists 0%nat. split; [simpl; lia|].
    simpl. discriminate.
  - reflexivity.
  - reflexivity.
Defined.

(** X13.  When no row has the original order id, either copy fails on its
    first insert: it throws [Failed to create split order O-split-1],
    having sent BEGIN, that one insert and ROLLBACK, and leaves the rows
    as they were with the transaction closed. *)
Theorem missing_original_fails_first_insert (F : StoreFaults)
    (completeOrder : string → string → jsnum → string → list OrderRow
                     → result bool * list OrderRow)
    (completeOrderController :
       Ctrl.MockReq → list OrderRow → result (option nat) * list OrderRow)
    (originalOrder : OrderRow) (s : ItemMap jsnum) (rest : list (ItemMap jsnum))
    (tableId O : string) (db : list OrderRow) (t : list event) :
  select_by_id O db = [] →
  connect_fault F = None →
  begin_fault F = None →
  insert_fault F 0 = None →
  rollback_fault F = None →
  let w0 := {| orders := db; txn := None; trace := t |} in
  let failed : result (list SplitResult) * World :=
    (Throw (Error ("Failed to create split order " +:+ O +:+ "-split-1")),
     {| orders := db; txn := None;
        trace := t ++ [EvConnect; EvBegin;
                       EvInsert (O +:+ "-split-1") s O;
                       EvRollback; EvRelease] |}) in
  Util.createSplitOrders F completeOrder originalOrder (s :: rest)
    tableId O w0 = failed
  ∧ Ctrl.createSplitOrders F completeOrderController originalOrder
      (s :: rest) tableId O w0 = failed.
Proof.
  intros Hsel Hconn Hbegin Hins Hrb w0 failed.
  assert (transaction_fails F O db (s :: rest)) as Hf
    by (do 2 right; left; by right).
  assert (split_order_id O 0 = O +:+ "-split-1") as Hid by reflexivity.
  split; unfold failed, w0.
  - destruct (createSplitOrders_with_failed_run F
                (Util.afterCommit completeOrder) originalOrder (s :: rest)
                tableId O db t Hf Hconn)
      as (e0 & w2 & evs & Hrun & Ho & Htr & _ & _ & _ & _ & Hrow).
    destruct (Hrow s rest Hbegin eq_refl Hins Hsel) as [-> ->].
    unfold Util.createSplitOrders.
    rewrite Hrun, rollback_release_run, Hrb, Ho, Htr.
    unfold msg_failed_insert. rewrite Hid.
    by rewrite <-!(assoc_L (++)).
  - destruct (createSplitOrders_with_failed_run F
                (Ctrl.afterCommit F completeOrderController) originalOrder
                (s :: rest) tableId O db t Hf Hconn)
      as (e0 & w2 & evs & Hrun & Ho & Htr & _ & _ & _ & _ & Hrow).
    destruct (Hrow s rest Hbegin eq_refl Hins Hsel) as [-> ->].
    unfold Ctrl.createSplitOrders.
    rewrite Hrun, rollback_release_run, Hrb, Ho, Htr.
    unfold msg_failed_insert. rewrite Hid.
    by rewrite <-!(assoc_L (++)).
Qed.

Lemma missing_original_fails_first_insert_witness :
  (Ctrl.createSplitOrders no_faults controller_ok sample_order
     [sample_items] "table-1" "order-999"
     {| orders := [sample_order]; txn := None; trace := [] |}).1
  = Throw (Error "Failed to create split order order-999-split-1").
Proof.
  pose proof (proj2 (missing_original_fails_first_insert no_faults
                       completeOrder_ok controller_ok sample_order
                       sample_items [] "table-1" "order-999"
                       [sample_order] [] eq_refl eq_refl eq_refl eq_refl
                       eq_refl)) as H.
  rewrite H. reflexivity.
Defined.

(** X14.  The first copy survives a completion that fails without
    throwing: when the transaction has committed and [completeOrder]
    resolves, to a truthy or to a falsy value, the operation returns the
    result of every share and sends no ROLLBACK. *)
Theorem first_copy_survives_falsy_completion (F : StoreFaults)
    (completeOrder : string → string → jsnum → string → list OrderRow
                     → result bool * list OrderRow)
    (originalOrder : OrderRow) (splits : list (ItemMap jsnum))
    (tableId O : string) (db : list OrderRow) (t : list event)
    (completed : bool) (db' : list OrderRow) :
  transaction_commits F O db splits →
  completeOrder (restaurant_id originalOrder) (table_id originalOrder) (jnum 0)
                "split" (db ++ derived_rows O (select_by_id O db) 0 splits)
  = (Ok completed, db') →
  ∃ results,
    Util.createSplitOrders F completeOrder originalOrder splits tableId O
      {| orders := db; txn := None; trace := t |}
    = (Ok results,
       {| orders := db'; txn := None;
          trace := t ++ [EvConnect; EvBegin] ++ insert_events O 0 splits
                     ++ [EvCommit;
                         EvComplete (restaurant_id originalOrder)
                                    (table_id originalOrder) (jnum 0) "split";
                         EvRelease] |})
    ∧ length results = length splits.
Proof.
  intros Hc Hdone. exists (expected_results O db splits).
  split; [|by apply (expected_results_lookup F)].
  rewrite (Util_createSplitOrders_committed _ _ _ _ _ _ _ _ Hc).
  cbn zeta. cbn [committed_world orders trace]. rewrite Hdone.
  cbn [fst snd]. by rewrite <-!(assoc_L (++)).
Qed.

Lemma first_copy_survives_falsy_completion_witness :
  ∃ results,
    (Util.createSplitOrders no_faults completeOrder_falsy sample_order
       [sample_items; sample_items] "table-1" "order-123"
       {| orders := [sample_order]; txn := None; trace := [] |}).1
    = Ok results
    ∧ length results = 2%nat.
Proof.
  destruct (first_copy_survives_falsy_completion no_faults
              completeOrder_falsy sample_order [sample_items; sample_items]
              "table-1" "order-123" [sample_order] [] false
              ([sample_order]
               ++ derived_rows "order-123"
                    (select_by_id "order-123" [sample_order]) 0
                    [sample_items; sample_items]))
    as (results & Hrun & Hlen).
  - split_and!; [done|done|done| |done]. right.
    intros H. vm_compute in H. discriminate.
  - reflexivity.
  - exists results. by rewrite Hrun.
Defined.

(** ** Further claims about the workflow *)

(** X15.  When the lookup fails, either copy of the workflow answers
    having sent nothing but the lookup: 400 with the store's message when
    the store refuses the lookup, 404 [Order not found] when no row has
    the order id and the table id.  No connection is taken and no row
    changes. *)
Theorem lookup_failures_stop_the_workflow (E : Engine) (F : StoreFaults)
    (completeOrder : string → string → jsnum → string → list OrderRow
                     → result bool * list OrderRow)
    (completeOrderController :
       Ctrl.MockReq → list OrderRow → result (option nat) * list OrderRow)
    (req_body : SplitRequest jsnum) (w : World) (tId oId : string) :
  validateSplitRequest req_body = Ok tt →
  tableId req_body = Some tId →
  orderId req_body = Some oId →
  let sent := {| orders := orders w; txn := txn w;
                 trace := trace w ++ [EvFetch oId tId] |} in
  (∀ m, fetch_fault F = Some m →
     Util.splitBill E F completeOrder req_body w
     = (Ok (res_status_json 400 (ErrorBody m)), sent)
     ∧ Ctrl.splitBill E F completeOrderController req_body w
       = (Ok (res_status_json 400 (ErrorBody m)), sent))
  ∧ (fetch_fault F = None →
     filter (λ r, row_id r = oId ∧ table_id r = tId) (orders w) = [] →
     Util.splitBill E F completeOrder req_body w
     = (Ok (res_status_json 404 (ErrorBody "Order not found")), sent)
     ∧ Ctrl.splitBill E F completeOrderController req_body w
       = (Ok (res_status_json 404 (ErrorBody "Order not found")), sent)).
Proof.
  intros Hv Ht Ho sent. unfold Util.splitBill, Ctrl.splitBill.
  split.
  - intros m Hm. split;
      apply (proj1 (splitBill_with_lookup_fails _ _ _ _ _ _ _ Hv Ht Ho)), Hm.
  - intros Hfetch Hnone. split;
      by apply (proj2 (splitBill_with_lookup_fails _ _ _ _ _ _ _ Hv Ht Ho)).
Qed.

Lemma lookup_failures_stop_the_workflow_witness :
  Ctrl.splitBill sample_engine no_faults controller_ok
    sample_portion_request (init_world [])
  = (Ok (res_status_json 404 (ErrorBody "Order not found")),
     {| orders := []; txn := None;
        trace := [] ++ [EvFetch "order-123" "table-1"] |}).
Proof.
  refine (proj2 (proj2 (lookup_failures_stop_the_workflow sample_engine
                          no_faults completeOrder_ok controller_ok
                          sample_portion_request (init_world [])
                          "table-1" "order-123" _ _ _) _ _)).
  - vm_compute. reflexivity.
  - reflexivity.
  - reflexivity.
  - reflexivity.
  - reflexivity.
Defined.

(** X16.  When the order is found but its shares cannot be computed,
    either copy answers 400 having sent nothing but the lookup: so for an
    order whose [json_data] is null, and so, with the message
    [Invalid array length], for a portion request whose validated [count]
    exceeds [2^32 - 1]. *)
Theorem calculation_failures_stop_the_workflow (E : Engine)
    (F : StoreFaults)
    (completeOrder : string → string → jsnum → string → list OrderRow
                     → result bool * list OrderRow)
    (completeOrderController :
       Ctrl.MockReq → list OrderRow → result (option nat) * list OrderRow)
    (req_body : SplitRequest jsnum) (w : World) (tId oId : string)
    (order : OrderRow) :
  validateSplitRequest req_body = Ok tt →
  tableId req_body = Some tId →
  orderId req_body = Some oId →
  fetch_fault F = None →
  head (filter (λ r, row_id r = oId ∧ table_id r = tId) (orders w))
  = Some order →
  let sent := {| orders := orders w; txn := txn w;
                 trace := trace w ++ [EvFetch oId tId] |} in
  (json_data order = None →
   (∃ m, Util.splitBill E F completeOrder req_body w
         = (Ok (res_status_json 400 (ErrorBody m)), sent))
   ∧ (∃ m, Ctrl.splitBill E F completeOrderController req_body w
           = (Ok (res_status_json 400 (ErrorBody m)), sent)))
  ∧ (∀ items c n,
       json_data order = Some items →
       splitType req_body = Some "portion" →
       count req_body = Some c →
       num_toZ c = Some n →
       (max_array_length < n)%Z →
       Util.splitBill E F completeOrder req_body w
       = (Ok (res_status_json 400 (ErrorBody "Invalid array length")), sent)
       ∧ Ctrl.splitBill E F completeOrderController req_body w
         = (Ok (res_status_json 400 (ErrorBody "Invalid array length")),
            sent)).
Proof.
  intros Hv Ht Ho Hfetch Hhead sent. unfold Util.splitBill, Ctrl.splitBill.
  split.
  - intros Hnull. split;
      by apply (proj1 (splitBill_with_no_shares _ _ _ _ _ _ _ _
                         Hv Ht Ho Hfetch Hhead)).
  - intros items c n Hitems Hs Hc Hn Hlt.
    pose proof (calculatePortionSplit_too_long E items c n
                  (jsnum_toZ_number c n Hn) Hn Hlt) as Hcalc.
    split;
      by apply (proj1 (proj2 (splitBill_with_no_shares _ _ _ _ _ _ _ _
                                Hv Ht Ho Hfetch Hhead))
                  items c (RangeError "Invalid array length")).
Qed.

Lemma calculation_failures_stop_the_workflow_witness :
  Ctrl.splitBill sample_engine no_faults controller_ok
    (with_count sample_portion_request (Some (jnum 4294967296)))
    (init_world [sample_order])
  = (Ok (res_status_json 400 (ErrorBody "Invalid array length")),
     {| orders := [sample_order]; txn := None;
        trace := [] ++ [EvFetch "order-123" "table-1"] |}).
Proof.
  refine (proj2 (proj2 (calculation_failures_stop_the_workflow sample_engine
                          no_faults completeOrder_ok controller_ok
                          (with_count sample_portion_request
                                      (Some (jnum 4294967296)))
                          (init_world [sample_order])
                          "table-1" "order-123" sample_order _ _ _ _ _)
                   sample_items (jnum 4294967296) 4294967296%Z _ _ _ _ _)).
  - vm_compute. reflexivity.
  - reflexivity.
  - reflexivity.
  - reflexivity.
  - vm_compute. reflexivity.
  - reflexivity.
  - reflexivity.
  - reflexivity.
  - reflexivity.
  - unfold max_array_length. lia.
Defined.

Lemma found_order_selected (db : list OrderRow) (tId oId : string)
    (order : OrderRow) :
  head (filter (λ r, row_id r = oId ∧ table_id r = tId) db) = Some order →
  select_by_id oId db ≠ [].
Proof.
  intros Hhead Hnone.
  assert (order ∈ filter (λ r, row_id r = oId ∧ table_id r = tId) db)
    as [[Hid _] Hin]%list_elem_of_filter.
  { destruct (filter _ db); [discriminate Hhead|].
    injection Hhead as ->. apply elem_of_cons. by left. }
  assert (order ∈ select_by_id oId db) as Hsel
    by (by apply list_elem_of_filter).
  rewrite Hnone in Hsel. by apply elem_of_nil in Hsel.
Qed.

Lemma validated_shares_nonempty (E : Engine) (req_body : SplitRequest jsnum)
    (items : ItemMap jsnum) (shares : list (ItemMap jsnum)) :
  validateSplitRequest req_body = Ok tt →
  request_shares E req_body items shares →
  shares ≠ [].
Proof.
  intros (_ & _ & Hvalid)%validate_ok_inv Hshares.
  destruct Hshares as [[Hs (c & Hc & Hcalc)]|[Hs (ps & Hps & ->)]];
    destruct Hvalid as [[Hs' (c' & Hc' & Hf & Hlt & Hint)]
                       |[Hs' (ps' & Hps' & Hlen & _)]]; try congruence.
  - assert (c' = c) as -> by congruence.
    apply calculatePortionSplit_Returns_inv in Hcalc
      as (n & Hn & _ & _ & ->).
    apply isInteger_toZ in Hint as [n' Hn'].
    apply Array_length_Ok in Hn as [_ Hn].
    specialize (Hn (jsnum_toZ_number c n' Hn')).
    pose proof (validated_count_positive c n Hf Hlt Hn).
    destruct (Z.to_nat n) eqn:Hz; [lia|done].
  - assert (ps' = ps) as -> by congruence.
    unfold calculatePercentageSplit. by destruct ps.
Qed.

(** X17.  The second copy end to end: for a valid request whose order is
    found with its items and whose shares the calculator returns, on a
    store that raises no error in the transaction, the workflow answers
    200 with one result per share, named [orderId-split-1] to
    [orderId-split-N] in order, whether the completion collaborator
    resolves or throws an error; the rows left are what that collaborator
    made of the original rows followed by the derived ones. *)
Theorem second_copy_split_succeeds (E : Engine) (F : StoreFaults)
    (completeOrderController :
       Ctrl.MockReq → list OrderRow → result (option nat) * list OrderRow)
    (req_body : SplitRequest jsnum) (w : World) (tId oId : string)
    (order : OrderRow) (items : ItemMap jsnum)
    (shares : list (ItemMap jsnum)) :
  validateSplitRequest req_body = Ok tt →
  tableId req_body = Some tId →
  orderId req_body = Some oId →
  txn w = None →
  fetch_fault F = None →
  head (filter (λ r, row_id r = oId ∧ table_id r = tId) (orders w))
  = Some order →
  json_data order = Some items →
  (splitType req_body = Some "portion"
   ∧ ∃ c, count req_body = Some c
          ∧ calculatePortionSplit E items c = Returns shares)
  ∨ (splitType req_body = Some "percentage"
     ∧ ∃ ps, percentages req_body = Some ps
             ∧ shares = calculatePercentageSplit items ps) →
  connect_fault F = None →
  begin_fault F = None →
  (∀ k, (k < length shares)%nat → insert_fault F k = None) →
  commit_fault F = None →
  ∃ results w',
    Ctrl.splitBill E F completeOrderController req_body w
    = (Ok (res_json (SuccessBody "Bill split successful" results)), w')
    ∧ length results = length shares
    ∧ res_orderId <$> results
      = (λ i, oId +:+ "-split-" +:+ pretty (i + 1)%nat)
          <$> seq 0 (length shares)
    ∧ orders w'
      = (completeOrderController
           (Ctrl.mkMockReq (restaurant_id order) (table_id order) (jnum 0)
                           "split")
           (orders w
            ++ derived_rows oId (select_by_id oId (orders w)) 0 shares)).2.
Proof.
  intros Hv Ht Ho Htxn Hfetch Hhead Hitems Hshares Hconn Hbegin Hins Hcommit.
  pose proof (found_order_selected _ _ _ _ Hhead) as Hsel.
  assert (transaction_commits F oId (orders w) shares) as Hc
    by (split_and!; auto).
  unfold Ctrl.splitBill.
  rewrite (splitBill_with_relays E F _ req_body w tId oId order items shares
             Hv Ht Ho Hfetch Hhead Hitems Hshares).
  rewrite Htxn.
  change (createSplitOrders_with F (Ctrl.afterCommit F ?c))
    with (Ctrl.createSplitOrders F c).
  rewrite (Ctrl_createSplitOrders_committed _ _ _ _ _ _ _ _ Hc).
  cbn zeta. cbn [committed_world orders trace].
  do 2 eexists. split; [done|].
  split_and!; [by apply (expected_results_lookup F)| |done].
  unfold expected_results.
  destruct (select_by_id oId (orders w)); [done|].
  cbn [head]. apply derived_results_ids.
Qed.

Lemma second_copy_split_succeeds_witness :
  ∃ results w',
    Ctrl.splitBill sample_engine no_faults controller_throws
      sample_portion_request (init_world [sample_order])
    = (Ok (res_json (SuccessBody "Bill split successful" results)), w')
    ∧ length results = 2%nat.
Proof.
  destruct (second_copy_split_succeeds sample_engine no_faults
              controller_throws
              sample_portion_request (init_world [sample_order])
              "table-1" "order-123" sample_order sample_items
              (replicate 2 (share_of (λ q, num_div q (jnum 2))
                                     sample_items)))
    as (results & w' & Hrun & Hlen & _).
  - vm_compute. reflexivity.
  - reflexivity.
  - reflexivity.
  - reflexivity.
  - reflexivity.
  - vm_compute. reflexivity.
  - reflexivity.
  - left. split; [reflexivity|]. exists (jnum 2). split; [reflexivity|].
    apply (calculatePortionSplit_Returns sample_engine sample_items
             (jnum 2) 2%Z);
      [reflexivity|reflexivity|unfold max_array_length; lia|simpl; lia].
  - reflexivity.
  - reflexivity.
  - reflexivity.
  - reflexivity.
  - exists results, w'. split; [exact Hrun|exact Hlen].
Defined.

(** X18.  An error the store raises on the first insert reaches the
    caller: for a valid request whose order is found with its items,
    either copy answers 400 with the store's message, the rows are as they
    were and the transaction is closed. *)
Theorem store_error_reaches_caller (E : Engine) (F : StoreFaults)
    (completeOrder : string → string → jsnum → string → list OrderRow
                     → result bool * list OrderRow)
    (completeOrderController :
       Ctrl.MockReq → list OrderRow → result (option nat) * list OrderRow)
    (req_body : SplitRequest jsnum) (w : World) (tId oId : string)
    (order : OrderRow) (items : ItemMap jsnum)
    (shares : list (ItemMap jsnum)) (m : string) :
  validateSplitRequest req_body = Ok tt →
  tableId req_body = Some tId →
  orderId req_body = Some oId →
  txn w = None →
  fetch_fault F = None →
  head (filter (λ r, row_id r = oId ∧ table_id r = tId) (orders w))
  = Some order →
  json_data order = Some items →
  (splitType req_body = Some "portion"
   ∧ ∃ c, count req_body = Some c
          ∧ calculatePortionSplit E items c = Returns shares)
  ∨ (splitType req_body = Some "percentage"
     ∧ ∃ ps, percentages req_body = Some ps
             ∧ shares = calculatePercentageSplit items ps) →
  connect_fault F = None →
  begin_fault F = None →
  insert_fault F 0 = Some m →
  rollback_fault F = None →
  let refused (run : result Response * World) :=
    run.1 = Ok (res_status_json 400 (ErrorBody m))
    ∧ orders run.2 = orders w
    ∧ txn run.2 = None in
  refused (Util.splitBill E F completeOrder req_body w)
  ∧ refused (Ctrl.splitBill E F completeOrderController req_body w).
Proof.
  intros Hv Ht Ho Htxn Hfetch Hhead Hitems Hshares Hconn Hbegin Hins Hrb
    refused.
  pose proof (validated_shares_nonempty _ _ _ _ Hv Hshares) as Hne.
  destruct shares as [|s rest]; [done|].
  assert (transaction_fails F oId (orders w) (s :: rest)) as Hf.
  { do 2 right. left. left. exists 0%nat. split; [simpl; lia|].
    by rewrite Hins. }
  assert (∀ afterCommit,
            refused (splitBill_with E F afterCommit req_body w))
    as Hboth.
  { intros afterCommit. unfold refused.
    rewrite (splitBill_with_relays E F afterCommit req_body w tId oId order
               items (s :: rest) Hv Ht Ho Hfetch Hhead Hitems Hshares).
    rewrite Htxn.
    destruct (createSplitOrders_with_failed_run F afterCommit order
                (s :: rest) tId oId (orders w)
                (trace w ++ [EvFetch oId tId]) Hf Hconn)
      as (e0 & w2 & evs & -> & Hrows & _ & _ & _ & _ & Hfirst & _).
    destruct (Hfirst s rest m Hbegin eq_refl Hins) as [-> _].
    rewrite rollback_release_run, Hrb. by cbn. }
  split; apply Hboth.
Qed.

Lemma store_error_reaches_caller_witness :
  (Ctrl.splitBill sample_engine first_insert_refused controller_ok
     sample_portion_request (init_world [sample_order])).1
  = Ok (res_status_json 400 (ErrorBody "unique violation")).
Proof.
  refine (proj1 (proj2 (store_error_reaches_caller sample_engine
                          first_insert_refused
                          completeOrder_ok controller_ok
                          sample_portion_request
                          (init_world [sample_order])
                          "table-1" "order-123" sample_order sample_items
                          (replicate 2
                             (share_of (λ q, num_div q (jnum 2))
                                       sample_items))
                          "unique violation"
                          _ _ _ _ _ _ _ _ _ _ _ _))).
  - vm_compute. reflexivity.
  - reflexivity.
  - reflexivity.
  - reflexivity.
  - reflexivity.
  - vm_compute. reflexivity.
  - reflexivity.
  - left. split; [reflexivity|]. exists (jnum 2). split; [reflexivity|].
    apply (calculatePortionSplit_Returns sample_engine sample_items
             (jnum 2) 2%Z);
      [reflexivity|reflexivity|unfold max_array_length; lia|simpl; lia].
  - reflexivity.
  - reflexivity.
  - reflexivity.
  - reflexivity.
Defined.

(** X19.  In the second copy a failure answer means that nothing was
    persisted: whenever the workflow, started with no transaction open,
    answers with an error body, the committed rows are those it started
    with. *)
Theorem second_copy_failure_persists_nothing (E : Engine) (F : StoreFaults)
    (completeOrderController :
       Ctrl.MockReq → list OrderRow → result (option nat) * list OrderRow)
    (req_body : SplitRequest jsnum) (w : World) (resp : Response)
    (w' : World) (m : string) :
  txn w = None →
  Ctrl.splitBill E F completeOrderController req_body w = (Ok resp, w') →
  body resp = ErrorBody m →
  orders w' = orders w.
Proof.
  intros Htxn Hrun Herr. unfold Ctrl.splitBill in Hrun.
  apply splitBill_with_outcome in Hrun
    as [(_ & Ho & _)|(order & shares & tId & oId & r & Hrun & ->)];
    [done|].
  rewrite Htxn in Hrun.
  change (createSplitOrders_with F (Ctrl.afterCommit F ?c))
    with (Ctrl.createSplitOrders F c) in Hrun.
  apply Ctrl_createSplitOrders_cases in Hrun
    as [(_ & -> & _)|(_ & _ & Ho)]; [discriminate Herr|done].
Qed.

Lemma second_copy_failure_persists_nothing_witness :
  orders (Ctrl.splitBill sample_engine second_insert_refused controller_ok
            sample_portion_request (init_world [sample_order])).2
  = [sample_order]%list.
Proof.
  destruct (Ctrl.splitBill sample_engine second_insert_refused controller_ok
              sample_portion_request (init_world [sample_order]))
    as [[resp|e] w'] eqn:Hrun.
  - apply (second_copy_failure_persists_nothing sample_engine
             second_insert_refused
             controller_ok sample_portion_request
             (init_world [sample_order]) resp w' "deadlock detected").
    + reflexivity.
    + exact Hrun.
    + vm_compute in Hrun. injection Hrun as <- _. reflexivity.
  - vm_compute in Hrun. discriminate Hrun.
Defined.
